(** * base-ft-rw-app-go: the HTTP handler wrappers of [handler_wrappers.go]

    A shallow embedding of the two decorators of package [baseftrwapp]
    ([HTTPMetricsHandler] and [TransactionAwareRequestLoggingHandler]) and of
    the capability-preserving response writer they are built on, followed by
    the properties of the specification that concern them.

    Conventions.
    - Go's [int] is modelled as [Z]; the only arithmetic the source performs
      on it ([l.size += size]) is written with its 64-bit wrap-around.
    - An [http.ResponseWriter] handed to the decorators is an interface value:
      a dynamic type (here a record of methods, the optional ones under
      [option]) together with the state behind it (a value of type [RS]).
    - The inner [http.Handler] is a finite interaction tree over the methods
      of the response writer it receives; it may also mutate the request,
      log through logrus, let time pass, or panic.
    - A Go panic is an explicit outcome ([Panicked]).  The panics followed
      are the handler's own and those of the decorators' code; the methods
      of the real writer are taken to return, and a request to carry a URL
      ([req.URL] is not [nil]), as [net/http]'s server provides them. *)

From Stdlib Require Import ZArith Lia Bool.
From Stdlib.Strings Require Import Byte.
From stdpp Require Import base option list gmap strings.

Local Open Scope Z_scope.

(** ** Go's [int] *)

Definition int_bits : Z := 64.

(** Two's complement normalisation of a mathematical integer to Go's [int]. *)
Definition wrap_int (z : Z) : Z :=
  (z + 2 ^ (int_bits - 1)) mod 2 ^ int_bits - 2 ^ (int_bits - 1).

#[global] Arguments wrap_int : simpl never.

Definition in_int_range (z : Z) : Prop :=
  - 2 ^ (int_bits - 1) <= z < 2 ^ (int_bits - 1).

(** [net/http] status codes used by the source. *)
Definition StatusOK : Z := 200.
Definition StatusSwitchingProtocols : Z := 101.

(** ** Opaque values of the standard library *)

(** An [error] value; [None] is Go's [nil]. *)
Definition error : Type := string.

(** [net.Conn], [*bufio.ReadWriter] and the [<-chan bool] of [CloseNotify]
    are only passed around, never inspected. *)
Definition Conn : Type := nat.
Definition ReadWriter : Type := nat.
Definition Chan : Type := nat.

(** The three results of [http.Hijacker.Hijack]. *)
Record HijackResult : Type := mkHijackResult {
  hj_conn : option Conn;
  hj_rw : option ReadWriter;
  hj_err : option error;
}.

(** ** Methods, interfaces and runtime type assertions *)

Inductive Method : Type :=
| Header | Write | WriteHeader | Flush | Status | Size | Hijack | CloseNotify.

#[global] Instance Method_eq_dec : EqDecision Method.
Proof. solve_decision. Defined.

Inductive Interface : Type :=
| http_ResponseWriter
| http_Flusher
| http_Hijacker
| http_CloseNotifier
| loggingResponseWriter_iface.

(** The method list of each interface; [loggingResponseWriter] embeds
    [http.ResponseWriter] and [http.Flusher] and adds [Status] and [Size]. *)
Definition iface_methods (i : Interface) : list Method :=
  match i with
  | http_ResponseWriter => [Header; Write; WriteHeader]
  | http_Flusher => [Flush]
  | http_Hijacker => [Hijack]
  | http_CloseNotifier => [CloseNotify]
  | loggingResponseWriter_iface =>
      [Header; Write; WriteHeader] ++ [Flush] ++ [Status; Size]
  end.

(** [x.(I)] succeeds exactly when the method set of the dynamic type of [x]
    contains every method of [I]. *)
Definition implements (ms : list Method) (i : Interface) : bool :=
  forallb (fun m => bool_decide (m ∈ ms)) (iface_methods i).

(** ** The real response writer *)

(** The dynamic type of the [http.ResponseWriter] the server hands in.
    [Header], [Write] and [WriteHeader] are mandatory; the three optional
    capabilities are present exactly when the field is [Some].
    [rw_HeaderSet k v] stands for [w.Header().Set(k, v)]. *)
Record ResponseWriter (RS : Type) : Type := mkResponseWriter {
  rw_HeaderSet : string -> string -> RS -> RS;
  rw_Write : list byte -> RS -> (Z * option error) * RS;
  rw_WriteHeader : Z -> RS -> RS;
  rw_Flush : option (RS -> RS);
  rw_Hijack : option (RS -> HijackResult * RS);
  rw_CloseNotify : option (RS -> Chan * RS);
}.
Arguments rw_HeaderSet {RS}.
Arguments rw_Write {RS}.
Arguments rw_WriteHeader {RS}.
Arguments rw_Flush {RS}.
Arguments rw_Hijack {RS}.
Arguments rw_CloseNotify {RS}.

Definition rw_methods {RS} (impl : ResponseWriter RS) : list Method :=
  iface_methods http_ResponseWriter
  ++ (if rw_Flush impl is Some _ then [Flush] else [])
  ++ (if rw_Hijack impl is Some _ then [Hijack] else [])
  ++ (if rw_CloseNotify impl is Some _ then [CloseNotify] else []).

(** ** The tracking writers *)

(** [type responseLogger struct { w http.ResponseWriter; status int; size int }] *)
Record responseLogger (RS : Type) : Type := mkResponseLogger {
  w : RS;
  status : Z;
  size : Z;
}.
Arguments mkResponseLogger {RS}.
Arguments w {RS}.
Arguments status {RS}.
Arguments size {RS}.

Definition with_w {RS} (w' : RS) (l : responseLogger RS) : responseLogger RS :=
  mkResponseLogger w' (status l) (size l).
Definition with_status {RS} (s : Z) (l : responseLogger RS) : responseLogger RS :=
  mkResponseLogger (w l) s (size l).
Definition with_size {RS} (n : Z) (l : responseLogger RS) : responseLogger RS :=
  mkResponseLogger (w l) (status l) n.

(** The dynamic types a [loggingResponseWriter] value can have.  All of them
    reach the same [responseLogger] cell: [hijackLogger] embeds it, and the
    two composite structs embed the interface value that points to it (in
    [hijackCloseNotifier{logger, h, c}], [h] is [logger] itself seen as an
    [http.Hijacker], and [c] is the real writer). *)
Inductive loggingResponseWriter : Type :=
| ptr_responseLogger
| ptr_hijackLogger
| ptr_closeNotifyWriter (logger : loggingResponseWriter)
| val_hijackCloseNotifier (logger h : loggingResponseWriter).

(** Methods declared on [*responseLogger]. *)
Definition responseLogger_methods : list Method :=
  [Header; Write; WriteHeader; Status; Size; Flush].

(** Method sets by Go's rules: [*hijackLogger] has its own [Hijack] and the
    methods promoted from the embedded [responseLogger]; a struct that embeds
    interfaces has exactly the methods of those interfaces. *)
Definition method_set (d : loggingResponseWriter) : list Method :=
  match d with
  | ptr_responseLogger => responseLogger_methods
  | ptr_hijackLogger => Hijack :: responseLogger_methods
  | ptr_closeNotifyWriter _ =>
      iface_methods loggingResponseWriter_iface ++ iface_methods http_CloseNotifier
  | val_hijackCloseNotifier _ _ =>
      iface_methods loggingResponseWriter_iface
      ++ iface_methods http_Hijacker ++ iface_methods http_CloseNotifier
  end.

Section Writers.
Context {RS : Type}.
Variable impl : ResponseWriter RS.

(** [func makeLogger(w http.ResponseWriter) loggingResponseWriter]: the
    dynamic type of the result and the fresh cell it points to. *)
Definition makeLogger (real : RS) : loggingResponseWriter * responseLogger RS :=
  let cell := mkResponseLogger real 0 0 in
  let logger := ptr_responseLogger in
  let logger :=
    if implements (rw_methods impl) http_Hijacker then ptr_hijackLogger
    else logger in
  let ok1 := implements (method_set logger) http_Hijacker in
  let ok2 := implements (rw_methods impl) http_CloseNotifier in
  if ok1 && ok2 then (val_hijackCloseNotifier logger logger, cell)
  else if ok2 then (ptr_closeNotifyWriter logger, cell)
  else (logger, cell).

(** [func (l *responseLogger) Header() http.Header], used through
    [Header().Set(k, v)]: the map returned is the real writer's. *)
Definition responseLogger_HeaderSet (k v : string) (l : responseLogger RS) : responseLogger RS :=
  with_w (rw_HeaderSet impl k v (w l)) l.

(** [func (l *responseLogger) Write(b []byte) (int, error)] *)
Definition responseLogger_Write (b : list byte) (l : responseLogger RS)
  : (Z * option error) * responseLogger RS :=
  let l := if status l =? 0 then with_status StatusOK l else l in
  let '((n, err), w') := rw_Write impl b (w l) in
  let l := with_w w' l in
  let l := with_size (wrap_int (size l + n)) l in
  ((n, err), l).

(** [func (l *responseLogger) WriteHeader(s int)] *)
Definition responseLogger_WriteHeader (s : Z) (l : responseLogger RS) : responseLogger RS :=
  let l := with_w (rw_WriteHeader impl s (w l)) l in
  with_status s l.

(** [func (l *responseLogger) Status() int] *)
Definition responseLogger_Status (l : responseLogger RS) : Z := status l.

(** [func (l *responseLogger) Size() int] *)
Definition responseLogger_Size (l : responseLogger RS) : Z := size l.

(** [func (l *responseLogger) Flush()] *)
Definition responseLogger_Flush (l : responseLogger RS) : responseLogger RS :=
  match rw_Flush impl with
  | Some flush => with_w (flush (w l)) l
  | None => l
  end.

(** [func (l *hijackLogger) Hijack() (net.Conn, *bufio.ReadWriter, error)].
    The type assertion [l.responseLogger.w.(http.Hijacker)] is unguarded:
    it panics ([None]) when the real writer has no [Hijack]. *)
Definition hijackLogger_Hijack (l : responseLogger RS) : option (HijackResult * responseLogger RS) :=
  match rw_Hijack impl with
  | None => None
  | Some hijack =>
      let '(r, w') := hijack (w l) in
      let l := with_w w' l in
      let l :=
        if bool_decide (hj_err r = None) && (status l =? 0)
        then with_status StatusSwitchingProtocols l
        else l in
      Some (r, l)
  end.

(** *** Method dispatch on a [loggingResponseWriter] value

    [None] is a panic: a method outside the method set of the dynamic type
    (a failed unguarded type assertion), or a call through an embedded
    interface that cannot answer it. *)

Fixpoint call_HeaderSet (d : loggingResponseWriter) (k v : string) (l : responseLogger RS)
  : responseLogger RS :=
  match d with
  | ptr_responseLogger | ptr_hijackLogger => responseLogger_HeaderSet k v l
  | ptr_closeNotifyWriter inner | val_hijackCloseNotifier inner _ =>
      call_HeaderSet inner k v l
  end.

Fixpoint call_Write (d : loggingResponseWriter) (b : list byte) (l : responseLogger RS)
  : (Z * option error) * responseLogger RS :=
  match d with
  | ptr_responseLogger | ptr_hijackLogger => responseLogger_Write b l
  | ptr_closeNotifyWriter inner | val_hijackCloseNotifier inner _ =>
      call_Write inner b l
  end.

Fixpoint call_WriteHeader (d : loggingResponseWriter) (s : Z) (l : responseLogger RS)
  : responseLogger RS :=
  match d with
  | ptr_responseLogger | ptr_hijackLogger => responseLogger_WriteHeader s l
  | ptr_closeNotifyWriter inner | val_hijackCloseNotifier inner _ =>
      call_WriteHeader inner s l
  end.

Fixpoint call_Status (d : loggingResponseWriter) (l : responseLogger RS) : Z :=
  match d with
  | ptr_responseLogger | ptr_hijackLogger => responseLogger_Status l
  | ptr_closeNotifyWriter inner | val_hijackCloseNotifier inner _ =>
      call_Status inner l
  end.

Fixpoint call_Size (d : loggingResponseWriter) (l : responseLogger RS) : Z :=
  match d with
  | ptr_responseLogger | ptr_hijackLogger => responseLogger_Size l
  | ptr_closeNotifyWriter inner | val_hijackCloseNotifier inner _ =>
      call_Size inner l
  end.

Fixpoint call_Flush (d : loggingResponseWriter) (l : responseLogger RS) : option (responseLogger RS) :=
  match d with
  | ptr_responseLogger | ptr_hijackLogger => Some (responseLogger_Flush l)
  | ptr_closeNotifyWriter inner | val_hijackCloseNotifier inner _ =>
      call_Flush inner l
  end.

Fixpoint call_Hijack (d : loggingResponseWriter) (l : responseLogger RS)
  : option (HijackResult * responseLogger RS) :=
  match d with
  | ptr_responseLogger => None
  | ptr_hijackLogger => hijackLogger_Hijack l
  | ptr_closeNotifyWriter _ => None
  | val_hijackCloseNotifier _ h => call_Hijack h l
  end.

(** [CloseNotify] is promoted from the embedded [http.CloseNotifier], which
    is the real writer. *)
Definition call_CloseNotify (d : loggingResponseWriter) (l : responseLogger RS)
  : option (Chan * responseLogger RS) :=
  match d with
  | ptr_responseLogger | ptr_hijackLogger => None
  | ptr_closeNotifyWriter _ | val_hijackCloseNotifier _ _ =>
      match rw_CloseNotify impl with
      | Some closeNotify =>
          let '(c, w') := closeNotify (w l) in Some (c, with_w w' l)
      | None => None
      end
  end.

End Writers.

(** ** Requests *)

(** [url.Userinfo]: only [Username()] is consulted. *)
Record Userinfo : Type := mkUserinfo {
  ui_username : string;
}.

(** [url.URL]; [User] is a pointer that may be [nil]. *)
Record URL : Type := mkURL {
  url_Scheme : string;
  url_Opaque : string;
  url_User : option Userinfo;
  url_Host : string;
  url_Path : string;
  url_RawQuery : string;
}.

(** The fields of [http.Request] the decorators read.  [req_URL] is the value
    [*req.URL] points to. *)
Record Request : Type := mkRequest {
  req_Method : string;
  req_URL : URL;
  req_Proto : string;
  req_ProtoMajor : Z;
  req_Header : gmap string (list string);
  req_Host : string;
  req_RemoteAddr : string;
  req_RequestURI : string;
}.

(** [http.Header.Get]: the first value stored under the key, or the empty
    string. *)
Definition Header_Get (h : gmap string (list string)) (key : string) : string :=
  match h !! key with
  | Some (v :: _) => v
  | _ => ""%string
  end.

(** [req.Referer()] and [req.UserAgent()]. *)
Definition Request_Referer (req : Request) : string :=
  Header_Get (req_Header req) "Referer".
Definition Request_UserAgent (req : Request) : string :=
  Header_Get (req_Header req) "User-Agent".

(** ** The log collaborator *)

(** The [log.Fields] literal built by [writeRequestLog]. *)
Record Fields : Type := mkFields {
  f_time : Z;
  f_host : string;
  f_username : string;
  f_method : string;
  f_transaction_id : string;
  f_uri : string;
  f_protocol : string;
  f_status : Z;
  f_size : Z;
  f_referer : string;
  f_userAgent : string;
}.

(** One call [log.WithFields(fields).Info(msg)] on logrus' standard logger. *)
Record Entry : Type := mkEntry {
  entry_fields : Fields;
  entry_message : string;
}.

(** An [io.Writer] value, identified by the object it points to. *)
Definition Writer : Type := nat.

(** ** The world around a request *)

(** The calls an inner handler made on the response writer it was given, with
    their results (a ghost record; the source keeps no such list). *)
Inductive Call : Type :=
| CHeaderSet (key value : string)
| CWrite (b : list byte) (n : Z) (err : option error)
| CWriteHeader (s : Z)
| CFlush
| CHijack (r : HijackResult)
| CCloseNotify (c : Chan).

Record Shared : Type := mkShared {
  sh_req : Request;                       (* the request [req] points to *)
  sh_now : Z;                             (* the clock, in nanoseconds *)
  sh_logrus : list Entry;                 (* entries received by logrus' standard logger *)
  sh_writers : gmap Writer (list byte);   (* bytes received by each [io.Writer] *)
  sh_registry : gmap string (list Z);     (* [metrics.DefaultRegistry]: samples per timer *)
  sh_calls : list Call;                   (* ghost: calls made by the inner handler *)
}.

Definition set_req (r : Request) (sh : Shared) : Shared :=
  mkShared r (sh_now sh) (sh_logrus sh) (sh_writers sh) (sh_registry sh) (sh_calls sh).
Definition set_now (t : Z) (sh : Shared) : Shared :=
  mkShared (sh_req sh) t (sh_logrus sh) (sh_writers sh) (sh_registry sh) (sh_calls sh).
Definition set_logrus (es : list Entry) (sh : Shared) : Shared :=
  mkShared (sh_req sh) (sh_now sh) es (sh_writers sh) (sh_registry sh) (sh_calls sh).
Definition set_registry (r : gmap string (list Z)) (sh : Shared) : Shared :=
  mkShared (sh_req sh) (sh_now sh) (sh_logrus sh) (sh_writers sh) r (sh_calls sh).
Definition record_call (c : Call) (sh : Shared) : Shared :=
  mkShared (sh_req sh) (sh_now sh) (sh_logrus sh) (sh_writers sh) (sh_registry sh)
           (sh_calls sh ++ [c]).

(** How a call ends. *)
Inductive Outcome (A : Type) : Type :=
| Returned (a : A)
| Panicked (a : A).
Arguments Returned {A}.
Arguments Panicked {A}.

(** ** Inner handlers *)

(** What an [http.Handler] does with the [(w, req)] it receives.  The method
    calls outside [http.ResponseWriter] are the unguarded form
    [w.(http.Flusher).Flush()], which panics when the assertion fails;
    [HProbe] is the comma-ok form and lets the handler branch first. *)
Inductive Handler : Type :=
| HReturn
| HPanic
| HProbe (i : Interface) (k : bool -> Handler)
| HHeaderSet (key value : string) (k : Handler)
| HWrite (b : list byte) (k : Z -> option error -> Handler)
| HWriteHeader (s : Z) (k : Handler)
| HFlush (k : Handler)
| HHijack (k : HijackResult -> Handler)
| HCloseNotify (k : Chan -> Handler)
| HSetRequest (f : Request -> Request) (k : Handler)
| HSleep (d : nat) (k : Handler)
| HLog (e : Entry) (k : Handler).

(** A response writer as a handler sees it: the method set of its dynamic
    type and what each call does to the state behind it. *)
Record Sink (St : Type) : Type := mkSink {
  sink_methods : list Method;
  sink_HeaderSet : string -> string -> St -> St;
  sink_Write : list byte -> St -> (Z * option error) * St;
  sink_WriteHeader : Z -> St -> St;
  sink_Flush : St -> option St;
  sink_Hijack : St -> option (HijackResult * St);
  sink_CloseNotify : St -> option (Chan * St);
}.
Arguments sink_methods {St}.
Arguments sink_HeaderSet {St}.
Arguments sink_Write {St}.
Arguments sink_WriteHeader {St}.
Arguments sink_Flush {St}.
Arguments sink_Hijack {St}.
Arguments sink_CloseNotify {St}.

(** [handler.ServeHTTP(w, req)] for the writer [o] in state [st]. *)
Fixpoint run {St : Type} (o : Sink St) (h : Handler) (st : St) (sh : Shared)
  : Outcome (St * Shared) :=
  match h with
  | HReturn => Returned (st, sh)
  | HPanic => Panicked (st, sh)
  | HProbe i k => run o (k (implements (sink_methods o) i)) st sh
  | HHeaderSet key value k =>
      run o k (sink_HeaderSet o key value st) (record_call (CHeaderSet key value) sh)
  | HWrite b k =>
      let '((n, err), st') := sink_Write o b st in
      run o (k n err) st' (record_call (CWrite b n err) sh)
  | HWriteHeader s k =>
      run o k (sink_WriteHeader o s st) (record_call (CWriteHeader s) sh)
  | HFlush k =>
      match sink_Flush o st with
      | Some st' => run o k st' (record_call CFlush sh)
      | None => Panicked (st, sh)
      end
  | HHijack k =>
      match sink_Hijack o st with
      | Some (r, st') => run o (k r) st' (record_call (CHijack r) sh)
      | None => Panicked (st, sh)
      end
  | HCloseNotify k =>
      match sink_CloseNotify o st with
      | Some (c, st') => run o (k c) st' (record_call (CCloseNotify c) sh)
      | None => Panicked (st, sh)
      end
  | HSetRequest f k => run o k st (set_req (f (sh_req sh)) sh)
  | HSleep d k => run o k st (set_now (sh_now sh + Z.of_nat d) sh)
  | HLog e k => run o k st (set_logrus (sh_logrus sh ++ [e]) sh)
  end.

(** ** The metrics collaborator *)

(** Modelled from the spec: the timer registry of go-metrics, which is not
    part of this repository.  A process-wide mapping from metric name to a
    timer accumulator (here the list of recorded samples); an entry is created
    on first use and never removed. *)
Definition GetOrRegisterTimer (name : string) (r : gmap string (list Z))
  : gmap string (list Z) :=
  match r !! name with
  | Some _ => r
  | None => <[name := []]> r
  end.

(** Modelled from the spec: [Timer.Update], adding one duration sample to the
    timer registered under [name]. *)
Definition Timer_Update (name : string) (d : Z) (r : gmap string (list Z))
  : gmap string (list Z) :=
  <[name := default [] (r !! name) ++ [d]]> r.

(** Modelled from the spec: [Timer.Time(f)] on the timer registered under
    [name]: read the clock, run [f], record the time elapsed since.  Nothing
    is deferred, so a panic in [f] leaves before the sample is recorded. *)
Definition Timer_Time {A : Type} (name : string)
    (f : Shared -> Outcome (A * Shared)) (sh : Shared) : Outcome (A * Shared) :=
  let ts := sh_now sh in
  match f sh with
  | Returned (a, sh') =>
      Returned (a, set_registry (Timer_Update name (sh_now sh' - ts) (sh_registry sh')) sh')
  | Panicked x => Panicked x
  end.

(** The handler values the two constructors return. *)
Record httpMetricsHandler : Type := mk_httpMetricsHandler {
  mh_handler : Handler;
}.

Record transactionAwareRequestLoggingHandler : Type :=
  mk_transactionAwareRequestLoggingHandler {
  lh_writer : Writer;
  lh_handler : Handler;
}.

(** [func HTTPMetricsHandler(h http.Handler) http.Handler] *)
Definition HTTPMetricsHandler (h : Handler) : httpMetricsHandler :=
  mk_httpMetricsHandler h.

(** [func TransactionAwareRequestLoggingHandler(out io.Writer, h http.Handler) http.Handler] *)
Definition TransactionAwareRequestLoggingHandler (out : Writer) (h : Handler)
  : transactionAwareRequestLoggingHandler :=
  mk_transactionAwareRequestLoggingHandler out h.

Section Decorators.
Context {RS : Type}.
Variable impl : ResponseWriter RS.

(** Collaborators outside the source file: the transaction-ID lookup of the
    package (a function of the request), [net.SplitHostPort] ([None] when
    it reports an error) and [url.URL.RequestURI]. *)
Variable GetTransactionIdFromRequest : Request -> string.
Variable SplitHostPort : string -> option (string * string).
Variable URL_RequestURI : URL -> string.

(** The real writer as the sink a handler receives when no tracking writer
    is put in between. *)
Definition real_sink : Sink RS :=
  {| sink_methods := rw_methods impl;
     sink_HeaderSet := rw_HeaderSet impl;
     sink_Write := rw_Write impl;
     sink_WriteHeader := rw_WriteHeader impl;
     sink_Flush := fun st => (fun f => f st) <$> rw_Flush impl;
     sink_Hijack := fun st => (fun f => f st) <$> rw_Hijack impl;
     sink_CloseNotify := fun st => (fun f => f st) <$> rw_CloseNotify impl |}.

(** The value returned by [makeLogger] as a sink over its cell. *)
Definition logger_sink (d : loggingResponseWriter) : Sink (responseLogger RS) :=
  {| sink_methods := method_set d;
     sink_HeaderSet := call_HeaderSet impl d;
     sink_Write := call_Write impl d;
     sink_WriteHeader := call_WriteHeader impl d;
     sink_Flush := call_Flush impl d;
     sink_Hijack := call_Hijack impl d;
     sink_CloseNotify := call_CloseNotify impl d |}.

(** [func (h httpMetricsHandler) ServeHTTP(w http.ResponseWriter, req *http.Request)].
    The timer [t] is the registry entry under the name [req.Method] had when
    the call began. *)
Definition httpMetricsHandler_ServeHTTP (h : httpMetricsHandler)
    (real : RS) (sh : Shared) : Outcome (RS * Shared) :=
  let name := req_Method (sh_req sh) in
  let sh := set_registry (GetOrRegisterTimer name (sh_registry sh)) sh in
  Timer_Time name (run real_sink (mh_handler h) real) sh.

(** The URI chosen by [writeRequestLog]. *)
Definition requestLog_uri (req : Request) (url : URL) : string :=
  let uri := req_RequestURI req in
  let uri :=
    if (req_ProtoMajor req =? 2) && String.eqb (req_Method req) "CONNECT"
    then req_Host req else uri in
  if String.eqb uri "" then URL_RequestURI url else uri.

(** The fields [writeRequestLog] assembles. *)
Definition requestLog_fields (req : Request) (transactionID : string)
    (url : URL) (ts : Z) (status size : Z) : Fields :=
  let username := "-"%string in
  let username :=
    match url_User url with
    | Some u => if String.eqb (ui_username u) "" then username else ui_username u
    | None => username
    end in
  let host :=
    match SplitHostPort (req_RemoteAddr req) with
    | Some (host, _) => host
    | None => req_RemoteAddr req
    end in
  let uri := requestLog_uri req url in
  {| f_time := ts;
     f_host := host;
     f_username := username;
     f_method := req_Method req;
     f_transaction_id := transactionID;
     f_uri := uri;
     f_protocol := req_Proto req;
     f_status := status;
     f_size := size;
     f_referer := Request_Referer req;
     f_userAgent := Request_UserAgent req |}.

(** [func writeRequestLog(w io.Writer, req *http.Request, transactionID string,
    url url.URL, ts time.Time, status, size int)].  The body never mentions
    [w]: the entry goes to logrus' standard logger. *)
Definition writeRequestLog (out : Writer) (req : Request) (transactionID : string)
    (url : URL) (ts : Z) (status size : Z) (sh : Shared) : Shared :=
  let fields := requestLog_fields req transactionID url ts status size in
  set_logrus (sh_logrus sh ++ [mkEntry fields ""]) sh.

(** [func (h transactionAwareRequestLoggingHandler) ServeHTTP(w http.ResponseWriter, req *http.Request)] *)
Definition transactionAwareRequestLoggingHandler_ServeHTTP
    (h : transactionAwareRequestLoggingHandler) (real : RS) (sh : Shared)
  : Outcome (RS * Shared) :=
  let transactionID := GetTransactionIdFromRequest (sh_req sh) in
  let t := sh_now sh in
  let '(logger, cell) := makeLogger impl real in
  let url := req_URL (sh_req sh) in
  match run (logger_sink logger) (lh_handler h) cell sh with
  | Returned (cell', sh') =>
      Returned (w cell',
                writeRequestLog (lh_writer h) (sh_req sh') transactionID url t
                  (call_Status logger cell') (call_Size logger cell') sh')
  | Panicked (cell', sh') => Panicked (w cell', sh')
  end.

End Decorators.

(** ** Reading a trace of calls *)

(** A [Hijack] call that reported no error. *)
Definition upgraded (r : HijackResult) : bool := bool_decide (hj_err r = None).

(** The effect of one call on the tracked [status], as the three methods that
    touch it compute it. *)
Definition status_step (s : Z) (c : Call) : Z :=
  match c with
  | CWrite _ _ _ => if s =? 0 then StatusOK else s
  | CWriteHeader code => code
  | CHijack r => if upgraded r && (s =? 0) then StatusSwitchingProtocols else s
  | _ => s
  end.

(** The effect of one call on the tracked [size]. *)
Definition size_step (n : Z) (c : Call) : Z :=
  match c with
  | CWrite _ k _ => wrap_int (n + k)
  | _ => n
  end.

Definition track_status (tr : list Call) (s0 : Z) : Z := fold_left status_step tr s0.
Definition track_size (tr : list Call) (n0 : Z) : Z := fold_left size_step tr n0.

Definition is_Write (c : Call) : bool :=
  match c with CWrite _ _ _ => true | _ => false end.
Definition is_WriteHeader (c : Call) : bool :=
  match c with CWriteHeader _ => true | _ => false end.
Definition is_upgrade (c : Call) : bool :=
  match c with CHijack r => upgraded r | _ => false end.

(** The code of the last [WriteHeader] call of a trace, if there is one. *)
Definition last_WriteHeader (tr : list Call) : option Z :=
  fold_left (fun acc c => match c with CWriteHeader s => Some s | _ => acc end) tr None.

(** Every [WriteHeader] call of the trace carries a non-zero code. *)
Definition codes_nonzero (tr : list Call) : bool :=
  forallb (fun c => match c with CWriteHeader s => negb (s =? 0) | _ => true end) tr.

(** Byte counts: what the handler passed to [Write], and what the real writer
    reported back. *)
Definition bytes_passed (tr : list Call) : Z :=
  fold_right (fun c acc => match c with CWrite b _ _ => Z.of_nat (length b) + acc | _ => acc end) 0 tr.
Definition bytes_reported (tr : list Call) : Z :=
  fold_right (fun c acc => match c with CWrite _ n _ => n + acc | _ => acc end) 0 tr.

(** Every [Write] of the trace was accepted in full by the real writer. *)
Definition writes_complete (tr : list Call) : bool :=
  forallb (fun c => match c with CWrite b n _ => n =? Z.of_nat (length b) | _ => true end) tr.

(** The value an outcome carries, however the call ended. *)
Definition outcome_val {A : Type} (o : Outcome A) : A :=
  match o with Returned a | Panicked a => a end.

Definition has_returned {A : Type} (o : Outcome A) : bool :=
  match o with Returned _ => true | Panicked _ => false end.

Definition map_outcome {A B : Type} (f : A -> B) (o : Outcome A) : Outcome B :=
  match o with Returned a => Returned (f a) | Panicked a => Panicked (f a) end.

(** ** Sample writers, handlers and requests

    Concrete inhabitants of the model, used to run the decorators. *)

(** A response writer that records what reaches it. *)
Record Recorder : Type := mkRecorder {
  rec_code : Z;
  rec_headers : list (string * string);
  rec_body : list byte;
  rec_flushes : nat;
  rec_hijacked : bool;
}.

Definition new_recorder : Recorder := mkRecorder 0 [] [] 0 false.

(** A healthy recorder accepts every byte; a broken one (a closed
    connection) accepts none and reports an error. *)
Definition recorder_Write (broken : bool) (b : list byte) (r : Recorder)
  : (Z * option error) * Recorder :=
  if broken then ((0, Some "broken pipe"%string), r)
  else ((Z.of_nat (length b), None),
        mkRecorder (if rec_code r =? 0 then StatusOK else rec_code r)
                   (rec_headers r) (rec_body r ++ b) (rec_flushes r) (rec_hijacked r)).

Definition recorder_Hijack (failure : option error) (r : Recorder)
  : HijackResult * Recorder :=
  match failure with
  | Some e => (mkHijackResult None None (Some e), r)
  | None =>
      (mkHijackResult (Some 1%nat) (Some 1%nat) None,
       mkRecorder (rec_code r) (rec_headers r) (rec_body r) (rec_flushes r) true)
  end.

(** The recorder with the chosen optional capabilities. *)
Definition recorder (can_flush can_hijack can_notify broken : bool)
    (hijack_failure : option error) : ResponseWriter Recorder :=
  {| rw_HeaderSet := fun k v r =>
       mkRecorder (rec_code r) ((k, v) :: rec_headers r) (rec_body r)
                  (rec_flushes r) (rec_hijacked r);
     rw_Write := recorder_Write broken;
     rw_WriteHeader := fun s r =>
       mkRecorder (if rec_code r =? 0 then s else rec_code r) (rec_headers r)
                  (rec_body r) (rec_flushes r) (rec_hijacked r);
     rw_Flush :=
       if can_flush
       then Some (fun r => mkRecorder (rec_code r) (rec_headers r) (rec_body r)
                                      (S (rec_flushes r)) (rec_hijacked r))
       else None;
     rw_Hijack := if can_hijack then Some (recorder_Hijack hijack_failure) else None;
     rw_CloseNotify := if can_notify then Some (fun r => (7%nat, r)) else None |}.

(** No optional capability at all. *)
Definition plain_writer : ResponseWriter Recorder :=
  recorder false false false false None.

(** Upgrade only, and the upgrade succeeds. *)
Definition upgrade_writer : ResponseWriter Recorder :=
  recorder false true false false None.

(** Every capability; the upgrade succeeds. *)
Definition full_writer : ResponseWriter Recorder :=
  recorder true true true false None.

(** A writer whose connection is gone: writes are refused. *)
Definition broken_writer : ResponseWriter Recorder :=
  recorder false false false true None.

Definition sample_url : URL :=
  mkURL "" "" None "" "/things" "limit=3".

Definition sample_request : Request :=
  mkRequest "GET" sample_url "HTTP/1.1" 1
            {[ "User-Agent"%string := ["curl/7.50"%string] ]}
            "api.example" "10.0.0.7:51234" "/things?limit=3".

(** The HTTP/2 CONNECT request of the specification's example. *)
Definition connect_request : Request :=
  mkRequest "CONNECT" (mkURL "" "" None "proxy.example:443" "" "")
            "HTTP/2.0" 2 ∅ "proxy.example:443" "10.0.0.7:51234" "".

Definition sample_world (req : Request) : Shared :=
  mkShared req 1000 [] ∅ ∅ [].

(** Stand-ins for the collaborators: a fixed transaction ID, an address
    splitter that always reports failure, and the path-and-query part of
    [url.URL.RequestURI]. *)
Definition sample_transaction_id (req : Request) : string := "tid_abc123".
Definition sample_SplitHostPort (addr : string) : option (string * string) := None.
Definition sample_RequestURI (u : URL) : string :=
  let path := if String.eqb (url_Path u) "" then "/"%string else url_Path u in
  if String.eqb (url_RawQuery u) "" then path
  else (path ++ "?" ++ url_RawQuery u)%string.

Definition hello : list byte := String.list_byte_of_string "hello".

(** Handlers: answer 404 with a body; write without a status; upgrade the
    connection; finalize twice; finalize with code 0 and write; rewrite the
    request and answer; sleep and answer. *)
Definition not_found_handler : Handler :=
  HWriteHeader 404 (HWrite hello (fun _ _ => HReturn)).
Definition write_handler : Handler :=
  HWrite hello (fun _ _ => HReturn).
Definition upgrade_handler : Handler :=
  HHijack (fun _ => HReturn).
Definition twice_handler : Handler :=
  HWriteHeader 404 (HWriteHeader 500 HReturn).
Definition zero_code_handler : Handler :=
  HWriteHeader 0 (HWrite hello (fun _ _ => HReturn)).
Definition rewriting_handler : Handler :=
  HSetRequest
    (fun r => mkRequest (req_Method r) (mkURL "" "" None "" "/rewritten" "")
                        (req_Proto r) (req_ProtoMajor r) (req_Header r)
                        (req_Host r) (req_RemoteAddr r) "")
    (HWrite hello (fun _ _ => HReturn)).
Definition slow_handler : Handler :=
  HSleep 250 (HWrite hello (fun _ _ => HReturn)).

(** The statuses and sizes of the entries logrus received. *)
Definition logged_statuses (sh : Shared) : list Z :=
  (fun e => f_status (entry_fields e)) <$> sh_logrus sh.
Definition logged_sizes (sh : Shared) : list Z :=
  (fun e => f_size (entry_fields e)) <$> sh_logrus sh.
Definition logged_uris (sh : Shared) : list string :=
  (fun e => f_uri (entry_fields e)) <$> sh_logrus sh.

(** The two decorators on a fresh recorder, with the stand-in collaborators
    and an arbitrary [io.Writer] (object 3). *)
Definition serve_logged (impl : ResponseWriter Recorder) (req : Request)
    (h : Handler) : Outcome (Recorder * Shared) :=
  transactionAwareRequestLoggingHandler_ServeHTTP impl sample_transaction_id
    sample_SplitHostPort sample_RequestURI
    (TransactionAwareRequestLoggingHandler 3%nat h) new_recorder (sample_world req).

Definition serve_timed (impl : ResponseWriter Recorder) (req : Request)
    (h : Handler) : Outcome (Recorder * Shared) :=
  httpMetricsHandler_ServeHTTP impl (HTTPMetricsHandler h) new_recorder
    (sample_world req).

(** ** Disciplines of inner handlers, and the real writer's view *)

#[global] Instance HijackResult_eq_dec : EqDecision HijackResult.
Proof. solve_decision. Defined.

(** Whether the dynamic type of the real writer has a [Flush] method. *)
Definition has_Flush {RS : Type} (impl : ResponseWriter RS) : bool :=
  match rw_Flush impl with Some _ => true | None => false end.

(** Replaying a trace of calls on the real writer alone: every call is made
    on it in order, with the recorded arguments, and must be answered with
    the recorded results ([None] otherwise).  A recorded [Flush] reaches the
    real writer only when it has the method. *)
Fixpoint forwarded {RS : Type} (impl : ResponseWriter RS) (tr : list Call) (real : RS)
  : option RS :=
  match tr with
  | [] => Some real
  | CHeaderSet key value :: tr' => forwarded impl tr' (rw_HeaderSet impl key value real)
  | CWrite b n err :: tr' =>
      let '((n', err'), real') := rw_Write impl b real in
      if bool_decide (n' = n) && bool_decide (err' = err)
      then forwarded impl tr' real' else None
  | CWriteHeader s :: tr' => forwarded impl tr' (rw_WriteHeader impl s real)
  | CFlush :: tr' =>
      match rw_Flush impl with
      | Some flush => forwarded impl tr' (flush real)
      | None => forwarded impl tr' real
      end
  | CHijack r :: tr' =>
      match rw_Hijack impl with
      | Some hijack =>
          let '(r', real') := hijack real in
          if bool_decide (r' = r) then forwarded impl tr' real' else None
      | None => None
      end
  | CCloseNotify c :: tr' =>
      match rw_CloseNotify impl with
      | Some closeNotify =>
          let '(c', real') := closeNotify real in
          if bool_decide (c' = c) then forwarded impl tr' real' else None
      | None => None
      end
  end.

(** A handler that cannot tell the tracking writer from the real one: it
    never asserts [loggingResponseWriter] (the interface with [Status] and
    [Size]), and it asserts [http.Flusher] or calls [Flush] only if the real
    writer can flush ([can_flush]). *)
Fixpoint oblivious (can_flush : bool) (h : Handler) : Prop :=
  match h with
  | HReturn | HPanic => True
  | HProbe i k =>
      i <> loggingResponseWriter_iface
      /\ (i = http_Flusher -> can_flush = true)
      /\ forall ok, oblivious can_flush (k ok)
  | HHeaderSet _ _ k | HWriteHeader _ k | HSetRequest _ k | HSleep _ k | HLog _ k =>
      oblivious can_flush k
  | HWrite _ k => forall n err, oblivious can_flush (k n err)
  | HFlush k => can_flush = true /\ oblivious can_flush k
  | HHijack k => forall r, oblivious can_flush (k r)
  | HCloseNotify k => forall c, oblivious can_flush (k c)
  end.

(** A handler that does not panic of its own accord and calls an optional
    method only on a writer whose method set [ms] has it (it may find out
    with the comma-ok assertion first). *)
Fixpoint disciplined (ms : list Method) (h : Handler) : Prop :=
  match h with
  | HReturn => True
  | HPanic => False
  | HProbe i k => disciplined ms (k (implements ms i))
  | HHeaderSet _ _ k | HWriteHeader _ k | HSetRequest _ k | HSleep _ k | HLog _ k =>
      disciplined ms k
  | HWrite _ k => forall n err, disciplined ms (k n err)
  | HFlush k => implements ms http_Flusher = true /\ disciplined ms k
  | HHijack k =>
      implements ms http_Hijacker = true /\ forall r, disciplined ms (k r)
  | HCloseNotify k =>
      implements ms http_CloseNotifier = true /\ forall c, disciplined ms (k c)
  end.

(** Every [Write] of the trace was answered within the contract of
    [io.Writer]: a count between 0 and the number of bytes passed. *)
Definition writes_within_contract (tr : list Call) : bool :=
  forallb (fun c => match c with
                    | CWrite b n _ => (0 <=? n) && (n <=? Z.of_nat (length b))
                    | _ => true
                    end) tr.

(** Upgrade when the writer allows it, answer over HTTP otherwise. *)
Definition guarded_upgrade_handler : Handler :=
  HProbe http_Hijacker
    (fun ok => if ok then HHijack (fun _ => HReturn)
               else HWriteHeader 426 (HWrite hello (fun _ _ => HReturn))).

(** Set a header, write, and flush if the writer can. *)
Definition streaming_handler : Handler :=
  HHeaderSet "Content-Type" "text/plain"
    (HWrite hello (fun _ _ =>
       HProbe http_Flusher (fun ok => if ok then HFlush HReturn else HReturn))).

(** A request whose URL carries user information. *)
Definition user_request : Request :=
  mkRequest "GET" (mkURL "https" "" (Some (mkUserinfo "alice")) "api.example" "/things" "")
            "HTTP/1.1" 1 ∅ "api.example" "10.0.0.7:51234" "/things".

(** Normal operation of a response writer, read off the calls made on it
    from tracked status [s] on: the headers are finalized at most once,
    before anything is written or upgraded, and with an HTTP status code.
    That is, every [WriteHeader] call is made while the status is still 0
    and carries a non-zero code. *)
Fixpoint normal_from (s : Z) (tr : list Call) : bool :=
  match tr with
  | [] => true
  | c :: tr' =>
      match c with
      | CWriteHeader code => (s =? 0) && negb (code =? 0)
      | _ => true
      end
      && normal_from (status_step s c) tr'
  end.

Definition normal_operation (tr : list Call) : bool := normal_from 0 tr.

(** The real writer honours the contract of [io.Writer]: whatever it is
    asked to write, in whatever state, the count it reports lies between 0
    and the number of bytes passed. *)
Definition honours_io_Writer {RS : Type} (impl : ResponseWriter RS) : Prop :=
  forall b st, 0 <= (rw_Write impl b st).1.1 <= Z.of_nat (length b).

(** Write, then panic. *)
Definition panicking_handler : Handler :=
  HWrite hello (fun _ _ => HPanic).

(** Ask for close notification and upgrade the connection, each only if the
    writer allows it. *)
Definition notify_then_upgrade_handler : Handler :=
  HProbe http_CloseNotifier
    (fun ok =>
       if ok
       then HCloseNotify
              (fun _ =>
                 HProbe http_Hijacker
                   (fun ok' => if ok' then HHijack (fun _ => HReturn) else HReturn))
       else HReturn).

(** ** Arithmetic of [wrap_int] *)

Lemma wrap_int_in_range z : in_int_range z -> wrap_int z = z.
Proof.
  unfold in_int_range, wrap_int, int_bits. intros H.
  rewrite Z.mod_small; lia.
Qed.

Lemma wrap_int_add_l a b : wrap_int (wrap_int a + b) = wrap_int (a + b).
Proof.
  unfold wrap_int, int_bits.
  f_equal.
  replace ((a + 2 ^ (64 - 1)) mod 2 ^ 64 - 2 ^ (64 - 1) + b + 2 ^ (64 - 1))
    with ((a + 2 ^ (64 - 1)) mod 2 ^ 64 + b) by lia.
  rewrite Zplus_mod_idemp_l. f_equal. lia.
Qed.

Lemma wrap_int_0 : wrap_int 0 = 0.
Proof. reflexivity. Qed.

(** ** Traces *)

Lemma track_status_app tr1 tr2 s0 :
  track_status (tr1 ++ tr2) s0 = track_status tr2 (track_status tr1 s0).
Proof. apply fold_left_app. Qed.

Lemma track_size_app tr1 tr2 n0 :
  track_size (tr1 ++ tr2) n0 = track_size tr2 (track_size tr1 n0).
Proof. apply fold_left_app. Qed.

Lemma track_size_reported tr n0 :
  track_size tr (wrap_int n0) = wrap_int (n0 + bytes_reported tr).
Proof.
  revert n0. induction tr as [|c tr IH]; intros n0; cbn.
  - f_equal. lia.
  - destruct c; cbn; try apply IH.
    rewrite wrap_int_add_l, IH. unfold bytes_reported. f_equal. lia.
Qed.

Lemma writes_complete_passed tr :
  writes_complete tr = true -> bytes_reported tr = bytes_passed tr.
Proof.
  unfold bytes_reported, bytes_passed.
  induction tr as [|c tr IH]; cbn; [done|].
  intros [Hc Htr]%andb_true_iff. specialize (IH Htr).
  destruct c; cbn; try done. apply Z.eqb_eq in Hc. lia.
Qed.

(** Without [WriteHeader] and without a successful upgrade, the status moves
    at most once, on the first [Write]. *)
Lemma track_status_writes_only tr s0 :
  forallb (fun c => negb (is_WriteHeader c)) tr = true ->
  forallb (fun c => negb (is_upgrade c)) tr = true ->
  track_status tr s0 = if existsb is_Write tr && (s0 =? 0) then StatusOK else s0.
Proof.
  revert s0. induction tr as [|c tr IH]; intros s0; cbn; [done|].
  intros [Hc1 H1]%andb_true_iff [Hc2 H2]%andb_true_iff.
  unfold track_status in *. rewrite IH by done.
  destruct c; cbn in *; try done.
  - destruct (s0 =? 0) eqn:E; cbn.
    + by rewrite andb_false_r.
    + rewrite E. by rewrite andb_false_r.
  - apply negb_true_iff in Hc2. rewrite Hc2. done.
Qed.

(** A non-zero status survives every call that is not a [WriteHeader]. *)
Lemma status_step_keeps s c :
  s <> 0 -> is_WriteHeader c = false -> status_step s c = s.
Proof.
  intros Hs Hc. apply Z.eqb_neq in Hs.
  destruct c; cbn in *; try done; rewrite Hs; by rewrite ?andb_false_r.
Qed.

Lemma last_WriteHeader_snoc tr c :
  last_WriteHeader (tr ++ [c])
  = match c with CWriteHeader s => Some s | _ => last_WriteHeader tr end.
Proof. unfold last_WriteHeader. rewrite fold_left_app. by destruct c. Qed.

Lemma track_status_last_code tr s0 code :
  last_WriteHeader tr = Some code -> code <> 0 -> track_status tr s0 = code.
Proof.
  induction tr as [|c tr IH] using rev_ind; [done|].
  rewrite last_WriteHeader_snoc, track_status_app. intros Hlast Hcode.
  destruct (is_WriteHeader c) eqn:Hc.
  - destruct c; try done. cbn. congruence.
  - assert (last_WriteHeader tr = Some code) as Htr by (by destruct c).
    rewrite (IH Htr Hcode). cbn. by apply status_step_keeps.
Qed.

Lemma track_status_nonzero tr s0 :
  codes_nonzero tr = true -> s0 <> 0 -> track_status tr s0 <> 0.
Proof.
  revert s0. induction tr as [|c tr IH]; intros s0; cbn; [done|].
  intros [Hc Htr]%andb_true_iff Hs. apply IH; [done|].
  destruct c; cbn in *; try done.
  - by destruct (Z.eqb_spec s0 0).
  - apply negb_true_iff, Z.eqb_neq in Hc. done.
  - destruct (Z.eqb_spec s0 0); [done|]. by rewrite andb_false_r.
Qed.

(** Starting unset, and with non-zero codes only, the status is unset exactly
    as long as nothing was written, finalized or upgraded. *)
Lemma track_status_unset_iff tr :
  codes_nonzero tr = true ->
  track_status tr 0 = 0
  <-> existsb (fun c => is_Write c || is_WriteHeader c || is_upgrade c) tr = false.
Proof.
  induction tr as [|c tr IH] using rev_ind; [done|].
  unfold codes_nonzero. rewrite forallb_app, existsb_app, track_status_app.
  intros [Htr Hc]%andb_true_iff. specialize (IH Htr).
  cbn in Hc. rewrite andb_true_r in Hc. cbn [existsb]. rewrite orb_false_r.
  rewrite orb_false_iff.
  destruct (Z.eq_dec (track_status tr 0) 0) as [E|E].
  - rewrite E. cbn. split.
    + intros H. split; [by apply IH|].
      destruct c; cbn in *; try done.
      * apply negb_true_iff, Z.eqb_neq in Hc. done.
      * destruct (upgraded r); cbn in *; done.
    + intros [_ H]. destruct c; cbn in *; try done.
      by rewrite H.
  - split.
    + intros H. exfalso.
      destruct (is_WriteHeader c) eqn:Hw.
      * destruct c; try done. cbn in *. apply negb_true_iff, Z.eqb_neq in Hc. done.
      * cbn in H. by rewrite status_step_keeps in H.
    + intros [H _]. apply IH in H. done.
Qed.

(** ** What a handler run leaves alone *)

Section Runs.
Context {St : Type}.
Variable o : Sink St.

(** No handler action reaches an [io.Writer] of the world. *)
Lemma run_writers h st sh :
  sh_writers (outcome_val (run o h st sh)).2 = sh_writers sh.
Proof.
  revert st sh.
  induction h as [| |i k IH|key v k IH|b k IH|s k IH|k IH|k IH|k IH|f k IH|d k IH|e k IH];
    intros st sh; cbn; try done; try (by rewrite IH).
  - destruct (sink_Write o b st) as [[n err] st']. by rewrite IH.
  - destruct (sink_Flush o st) as [st'|]; [by rewrite IH|done].
  - destruct (sink_Hijack o st) as [[r st']|]; [by rewrite IH|done].
  - destruct (sink_CloseNotify o st) as [[c st']|]; [by rewrite IH|done].
Qed.

(** The entries logrus received before the run stay in front. *)
Lemma run_logrus_prefix h st sh :
  exists es, sh_logrus (outcome_val (run o h st sh)).2 = sh_logrus sh ++ es.
Proof.
  revert st sh.
  induction h as [| |i k IH|key v k IH|b k IH|s k IH|k IH|k IH|k IH|f k IH|d k IH|e k IH];
    intros st sh; cbn;
    try (by exists []; rewrite app_nil_r); try exact (IH _ _); try exact (IH _ _ _).
  - destruct (sink_Write o b st) as [[n err] st']. exact (IH _ _ _ _).
  - destruct (sink_Flush o st) as [st'|];
      [exact (IH _ _)|by exists []; rewrite app_nil_r].
  - destruct (sink_Hijack o st) as [[r st']|];
      [exact (IH _ _ _)|by exists []; rewrite app_nil_r].
  - destruct (sink_CloseNotify o st) as [[c st']|];
      [exact (IH _ _ _)|by exists []; rewrite app_nil_r].
  - destruct (IH st (set_logrus (sh_logrus sh ++ [e]) sh)) as [es Hes].
    exists (e :: es). rewrite Hes. cbn. by rewrite <- app_assoc.
Qed.

(** The timer registry plays no part in a run: it is neither read nor
    written. *)
Lemma run_set_registry r h st sh :
  run o h st (set_registry r sh)
  = map_outcome (fun x => (x.1, set_registry r x.2)) (run o h st sh).
Proof.
  revert st sh.
  induction h as [| |i k IH|key v k IH|b k IH|s k IH|k IH|k IH|k IH|f k IH|d k IH|e k IH];
    intros st sh; cbn; try done; try (by rewrite <- IH).
  - destruct (sink_Write o b st) as [[n err] st']. by rewrite <- IH.
  - destruct (sink_Flush o st) as [st'|]; [by rewrite <- IH|done].
  - destruct (sink_Hijack o st) as [[r' st']|]; [by rewrite <- IH|done].
  - destruct (sink_CloseNotify o st) as [[c st']|]; [by rewrite <- IH|done].
Qed.

Lemma run_registry h st sh :
  sh_registry (outcome_val (run o h st sh)).2 = sh_registry sh.
Proof.
  revert st sh.
  induction h as [| |i k IH|key v k IH|b k IH|s k IH|k IH|k IH|k IH|f k IH|d k IH|e k IH];
    intros st sh; cbn; try done; try (by rewrite IH).
  - destruct (sink_Write o b st) as [[n err] st']. by rewrite IH.
  - destruct (sink_Flush o st) as [st'|]; [by rewrite IH|done].
  - destruct (sink_Hijack o st) as [[r st']|]; [by rewrite IH|done].
  - destruct (sink_CloseNotify o st) as [[c st']|]; [by rewrite IH|done].
Qed.

(** The clock never runs backwards during a run. *)
Lemma run_now_mono h st sh :
  sh_now sh <= sh_now (outcome_val (run o h st sh)).2.
Proof.
  revert st sh.
  induction h as [| |i k IH|key v k IH|b k IH|s k IH|k IH|k IH|k IH|f k IH|d k IH|e k IH];
    intros st sh; cbn; try lia; try exact (IH _ _); try exact (IH _ _ _).
  - destruct (sink_Write o b st) as [[n err] st']. exact (IH _ _ _ _).
  - destruct (sink_Flush o st) as [st'|]; [exact (IH _ _)|cbn; lia].
  - destruct (sink_Hijack o st) as [[r st']|]; [exact (IH _ _ _)|cbn; lia].
  - destruct (sink_CloseNotify o st) as [[c st']|]; [exact (IH _ _ _)|cbn; lia].
  - etrans; [|exact (IH _ _)]. cbn. lia.
Qed.

End Runs.

(** ** The tracking writer, call by call *)

Section Tracking.
Context {RS : Type}.
Variable impl : ResponseWriter RS.

(** Every dynamic type answers the [http.ResponseWriter], [http.Flusher],
    [Status] and [Size] calls with the methods of [*responseLogger]. *)
Lemma call_HeaderSet_eq d k v l :
  call_HeaderSet impl d k v l = responseLogger_HeaderSet impl k v l.
Proof. induction d; cbn; auto. Qed.

Lemma call_Write_eq d b l : call_Write impl d b l = responseLogger_Write impl b l.
Proof. induction d; cbn; auto. Qed.

Lemma call_WriteHeader_eq d s l :
  call_WriteHeader impl d s l = responseLogger_WriteHeader impl s l.
Proof. induction d; cbn; auto. Qed.

Lemma call_Flush_eq d l : call_Flush impl d l = Some (responseLogger_Flush impl l).
Proof. induction d; cbn; auto. Qed.

Lemma call_Status_eq d (l : responseLogger RS) : call_Status d l = status l.
Proof. induction d; cbn; auto. Qed.

Lemma call_Size_eq d (l : responseLogger RS) : call_Size d l = size l.
Proof. induction d; cbn; auto. Qed.

Lemma call_Hijack_cases d l :
  call_Hijack impl d l = None \/ call_Hijack impl d l = hijackLogger_Hijack impl l.
Proof. induction d; cbn; auto. Qed.

(** The four outcomes of [makeLogger], by the capabilities of the real
    writer. *)
Lemma makeLogger_cases real :
  makeLogger impl real
  = (match rw_Hijack impl, rw_CloseNotify impl with
     | Some _, Some _ => val_hijackCloseNotifier ptr_hijackLogger ptr_hijackLogger
     | Some _, None => ptr_hijackLogger
     | None, Some _ => ptr_closeNotifyWriter ptr_responseLogger
     | None, None => ptr_responseLogger
     end, mkResponseLogger real 0 0).
Proof.
  unfold makeLogger, rw_methods.
  destruct (rw_Flush impl), (rw_Hijack impl), (rw_CloseNotify impl); reflexivity.
Qed.

Lemma Write_tracks b l :
  let '((n, err), l') := responseLogger_Write impl b l in
  (n, err, w l') = rw_Write impl b (w l)
  /\ status l' = status_step (status l) (CWrite b n err)
  /\ size l' = size_step (size l) (CWrite b n err).
Proof.
  unfold responseLogger_Write.
  destruct (status l =? 0) eqn:E; cbn;
    destruct (rw_Write impl b (w l)) as [[n err] w'] eqn:Ew;
    cbn; rewrite ?E; done.
Qed.

Lemma Hijack_tracks l r l' :
  hijackLogger_Hijack impl l = Some (r, l') ->
  status l' = status_step (status l) (CHijack r) /\ size l' = size l.
Proof.
  unfold hijackLogger_Hijack.
  destruct (rw_Hijack impl) as [hijack|]; [|done].
  destruct (hijack (w l)) as [r0 w'] eqn:Eh. intros [= <- <-].
  cbn. unfold upgraded.
  destruct (bool_decide (hj_err r0 = None) && (status l =? 0)); done.
Qed.

(** The cell after a run is the fold of the calls made over the cell
    before it. *)
Lemma run_logger_tracks d h l sh :
  exists tr,
    sh_calls (outcome_val (run (logger_sink impl d) h l sh)).2 = sh_calls sh ++ tr
    /\ status (outcome_val (run (logger_sink impl d) h l sh)).1 = track_status tr (status l)
    /\ size (outcome_val (run (logger_sink impl d) h l sh)).1 = track_size tr (size l).
Proof.
  revert l sh.
  induction h as [| |i k IH|key v k IH|b k IH|s k IH|k IH|k IH|k IH|f k IH|dt k IH|e k IH];
    intros l sh; cbn -[call_Write call_Hijack];
    try (by exists []; rewrite app_nil_r); try exact (IH _ _); try exact (IH _ _ _).
  - destruct (IH (call_HeaderSet impl d key v l) (record_call (CHeaderSet key v) sh))
      as (tr & H1 & H2 & H3).
    exists (CHeaderSet key v :: tr). rewrite H1, H2, H3, call_HeaderSet_eq. cbn.
    by rewrite <- app_assoc.
  - rewrite call_Write_eq. pose proof (Write_tracks b l) as Hw.
    destruct (responseLogger_Write impl b l) as [[n err] l'].
    destruct Hw as (_ & Hs & Hn).
    destruct (IH n err l' (record_call (CWrite b n err) sh)) as (tr & H1 & H2 & H3).
    exists (CWrite b n err :: tr). rewrite H1, H2, H3, Hs, Hn. cbn.
    by rewrite <- app_assoc.
  - destruct (IH (call_WriteHeader impl d s l) (record_call (CWriteHeader s) sh))
      as (tr & H1 & H2 & H3).
    exists (CWriteHeader s :: tr). rewrite H1, H2, H3, call_WriteHeader_eq. cbn.
    by rewrite <- app_assoc.
  - rewrite call_Flush_eq.
    destruct (IH (responseLogger_Flush impl l) (record_call CFlush sh))
      as (tr & H1 & H2 & H3).
    exists (CFlush :: tr). rewrite H1, H2, H3. cbn. rewrite <- app_assoc.
    unfold responseLogger_Flush. by destruct (rw_Flush impl).
  - destruct (call_Hijack_cases d l) as [-> | ->];
      [by exists []; rewrite app_nil_r|].
    destruct (hijackLogger_Hijack impl l) as [[r l']|] eqn:Eh;
      [|by exists []; rewrite app_nil_r].
    destruct (Hijack_tracks _ _ _ Eh) as [Hs Hn].
    destruct (IH r l' (record_call (CHijack r) sh)) as (tr & H1 & H2 & H3).
    exists (CHijack r :: tr). rewrite H1, H2, H3, Hs, Hn. cbn.
    by rewrite <- app_assoc.
  - destruct (call_CloseNotify impl d l) as [[c l']|] eqn:Ec;
      [|by exists []; rewrite app_nil_r].
    destruct (IH c l' (record_call (CCloseNotify c) sh)) as (tr & H1 & H2 & H3).
    exists (CCloseNotify c :: tr). rewrite H1, H2, H3. cbn. rewrite <- app_assoc.
    unfold call_CloseNotify in Ec.
    destruct d; try done; destruct (rw_CloseNotify impl) as [cn|]; try done;
      destruct (cn (w l)); by injection Ec as <- <-.
Qed.

End Tracking.

(** ** Capabilities of the writer built by [makeLogger] *)

Section Capabilities.
Context {RS : Type}.
Variable impl : ResponseWriter RS.

(** A type assertion on the real writer sees exactly its optional methods. *)
Lemma real_implements_optional :
  implements (rw_methods impl) http_Flusher = bool_decide (is_Some (rw_Flush impl))
  /\ implements (rw_methods impl) http_Hijacker = bool_decide (is_Some (rw_Hijack impl))
  /\ implements (rw_methods impl) http_CloseNotifier
     = bool_decide (is_Some (rw_CloseNotify impl)).
Proof.
  unfold rw_methods.
  destruct (rw_Flush impl), (rw_Hijack impl), (rw_CloseNotify impl);
    repeat split; reflexivity.
Qed.

(** [Flush] is in the method set of every value [makeLogger] returns. *)
Lemma makeLogger_is_Flusher (real : RS) :
  implements (method_set (makeLogger impl real).1) http_Flusher = true.
Proof.
  rewrite makeLogger_cases.
  destruct (rw_Hijack impl), (rw_CloseNotify impl); reflexivity.
Qed.

(** On a value [makeLogger] returns, a call to an optional method answers
    exactly when the type assertion for its interface succeeds. *)
Lemma makeLogger_calls_agree_with_probes (real : RS) (l : responseLogger RS) :
  (is_Some (call_Flush impl (makeLogger impl real).1 l)
   <-> implements (method_set (makeLogger impl real).1) http_Flusher = true)
  /\ (is_Some (call_Hijack impl (makeLogger impl real).1 l)
      <-> implements (method_set (makeLogger impl real).1) http_Hijacker = true)
  /\ (is_Some (call_CloseNotify impl (makeLogger impl real).1 l)
      <-> implements (method_set (makeLogger impl real).1) http_CloseNotifier = true).
Proof.
  rewrite makeLogger_cases. unfold call_CloseNotify.
  destruct (rw_Hijack impl) as [hj|] eqn:Eh, (rw_CloseNotify impl) as [cn|] eqn:Ec;
    cbn; unfold hijackLogger_Hijack; rewrite ?Eh;
    try destruct (hj (w l)); try destruct (cn (w l));
    repeat split; intros H; try done; try (by eexists); by destruct H.
Qed.

(** C1, as amended: for each of the four combinations of upgrade and
    close-notify support of the real writer, the value returned by
    [makeLogger] answers the [http.Hijacker] and [http.CloseNotifier] type
    assertions exactly as the real writer does, and it always satisfies
    [loggingResponseWriter] ([http.ResponseWriter], [Status], [Size]) and
    therefore [http.Flusher], whether or not the real writer can flush. *)
Theorem C1_makeLogger_capabilities (real : RS) :
  let d := (makeLogger impl real).1 in
  implements (method_set d) http_Hijacker
    = implements (rw_methods impl) http_Hijacker
  /\ implements (method_set d) http_CloseNotifier
     = implements (rw_methods impl) http_CloseNotifier
  /\ implements (method_set d) loggingResponseWriter_iface = true
  /\ implements (method_set d) http_ResponseWriter = true
  /\ implements (method_set d) http_Flusher = true.
Proof.
  cbn zeta. rewrite makeLogger_cases. unfold rw_methods.
  destruct (rw_Flush impl), (rw_Hijack impl), (rw_CloseNotify impl);
    repeat split; reflexivity.
Qed.

(** C10: whatever the real writer, the tracking writer has a [Flush]
    method; the call never panics, forwards to the real writer's [Flush]
    when it has one and otherwise changes nothing, and in both cases leaves
    the tracked status and size alone. *)
Theorem C10_Flush_guarded (real : RS) (l : responseLogger RS) :
  let d := (makeLogger impl real).1 in
  implements (method_set d) http_Flusher = true
  /\ call_Flush impl d l
     = Some (match rw_Flush impl with
             | Some flush => mkResponseLogger (flush (w l)) (status l) (size l)
             | None => l
             end).
Proof.
  cbn zeta. split.
  - apply makeLogger_is_Flusher.
  - rewrite call_Flush_eq. unfold responseLogger_Flush.
    by destruct (rw_Flush impl).
Qed.

End Capabilities.

(** ** Normal operation *)

Lemma normal_from_app s tr1 tr2 :
  normal_from s (tr1 ++ tr2)
  = normal_from s tr1 && normal_from (track_status tr1 s) tr2.
Proof.
  revert s. induction tr1 as [|c tr1 IH]; intros s; cbn; [done|].
  by rewrite IH, andb_assoc.
Qed.

Lemma normal_from_codes s tr : normal_from s tr = true -> codes_nonzero tr = true.
Proof.
  unfold codes_nonzero.
  revert s. induction tr as [|c tr IH]; intros s; cbn; [done|].
  intros [Hc Htr]%andb_true_iff. rewrite (IH _ Htr), andb_true_r.
  destruct c; try done. by apply andb_true_iff in Hc as [_ ->].
Qed.

(** In normal operation a status that is set stays as it is. *)
Lemma normal_from_stable s tr :
  normal_from s tr = true -> s <> 0 -> track_status tr s = s.
Proof.
  revert s. induction tr as [|c tr IH]; intros s; cbn; [done|].
  intros [Hc Htr]%andb_true_iff Hs.
  assert (status_step s c = s) as Hstep.
  { apply status_step_keeps; [done|]. destruct c; try done.
    apply andb_true_iff in Hc as [Hz%Z.eqb_eq _]. done. }
  unfold track_status in *. rewrite Hstep in *. by apply IH.
Qed.

(** ** The status transitions of the tracking writer *)

Section Status.
Context {RS : Type}.
Variable impl : ResponseWriter RS.

(** C6: on the tracking writer built over a real writer that can be
    hijacked, [Hijack] is available and does not panic; it calls the real
    writer's [Hijack] once and hands back its three results as they are,
    error included; when the call reports no error the status becomes 101
    if it was still 0 and is kept otherwise; when it reports an error the
    status is kept; the size is never touched. *)
Theorem C6_Hijack_forwarded (real : RS) (hijack : RS -> HijackResult * RS)
    (l : responseLogger RS) :
  rw_Hijack impl = Some hijack ->
  let d := (makeLogger impl real).1 in
  let r := (hijack (w l)).1 in
  implements (method_set d) http_Hijacker = true
  /\ call_Hijack impl d l
     = Some (r, mkResponseLogger (hijack (w l)).2
                  (if upgraded r
                   then (if status l =? 0 then StatusSwitchingProtocols else status l)
                   else status l)
                  (size l)).
Proof.
  intros Hh. cbn zeta. rewrite makeLogger_cases, Hh. split.
  - by destruct (rw_CloseNotify impl).
  - assert (hijackLogger_Hijack impl l
            = Some ((hijack (w l)).1,
                    mkResponseLogger (hijack (w l)).2
                      (if upgraded (hijack (w l)).1
                       then (if status l =? 0 then StatusSwitchingProtocols else status l)
                       else status l)
                      (size l))) as Hcall.
    { unfold hijackLogger_Hijack, upgraded. rewrite Hh.
      destruct (hijack (w l)) as [r w']. cbn.
      by destruct (bool_decide (hj_err r = None)), (status l =? 0). }
    by destruct (rw_CloseNotify impl).
Qed.

(** The status, call by call: [Write] moves it only from 0, to 200; a
    [Hijack] moves it only from 0, to 101, and only when it succeeds;
    [WriteHeader] replaces it by its argument; no other method touches it.
    Within a request whose [WriteHeader] calls all carry non-zero codes, the
    status is 0 exactly as long as the handler has made no [Write] call, no
    [WriteHeader] call and no successful [Hijack]. *)
Lemma status_transitions (real : RS) (l : responseLogger RS) :
  let d := (makeLogger impl real).1 in
  (forall b, status (call_Write impl d b l).2
             = if status l =? 0 then StatusOK else status l)
  /\ (forall r l', call_Hijack impl d l = Some (r, l') ->
        status l'
        = if upgraded r && (status l =? 0) then StatusSwitchingProtocols else status l)
  /\ (forall s, status (call_WriteHeader impl d s l) = s)
  /\ (forall k v, status (call_HeaderSet impl d k v l) = status l)
  /\ (forall l', call_Flush impl d l = Some l' -> status l' = status l)
  /\ (forall c l', call_CloseNotify impl d l = Some (c, l') -> status l' = status l)
  /\ (forall h sh,
        exists tr,
          sh_calls (outcome_val (run (logger_sink impl d) h (makeLogger impl real).2 sh)).2
          = sh_calls sh ++ tr
          /\ (codes_nonzero tr = true ->
              status (outcome_val (run (logger_sink impl d) h (makeLogger impl real).2 sh)).1 = 0
              <-> existsb (fun c => is_Write c || is_WriteHeader c || is_upgrade c) tr
                  = false)).
Proof.
  cbn zeta. repeat apply conj.
  - intros b. rewrite call_Write_eq. pose proof (Write_tracks impl b l) as H.
    destruct (responseLogger_Write impl b l) as [[n err] l'].
    destruct H as (_ & H & _). cbn [snd]. by rewrite H.
  - intros r l' H.
    destruct (call_Hijack_cases impl (makeLogger impl real).1 l) as [E|E];
      rewrite E in H; [done|].
    by destruct (Hijack_tracks impl _ _ _ H) as [-> _].
  - intros s. by rewrite call_WriteHeader_eq.
  - intros k v. by rewrite call_HeaderSet_eq.
  - intros l'. rewrite call_Flush_eq. intros [= <-].
    unfold responseLogger_Flush. by destruct (rw_Flush impl).
  - intros c l'. unfold call_CloseNotify.
    destruct (makeLogger impl real).1; try done;
      destruct (rw_CloseNotify impl) as [cn|]; try done;
      destruct (cn (w l)); by intros [= <- <-].
  - intros h sh.
    destruct (run_logger_tracks impl (makeLogger impl real).1 h
                (makeLogger impl real).2 sh) as (tr & H1 & H2 & _).
    exists tr. split; [done|]. intros Hz.
    rewrite H2, makeLogger_cases. cbn [snd status].
    by apply track_status_unset_iff.
Qed.

(** C5: in normal operation (every [WriteHeader] call is made while the
    status is still 0, and with a non-zero code) the tracked status of a
    request is 0 only until the first byte is written or the headers are
    finalized: it is 0 exactly when the handler has made no [Write] call, no
    [WriteHeader] call and no successful [Hijack]; and once the status is
    non-zero no later call changes it: after any further calls of the
    request, and at its end, it is still the value it was first set to. *)
Theorem C5_status_invariant (real : RS) h sh :
  exists tr,
    sh_calls
      (outcome_val
         (run (logger_sink impl (makeLogger impl real).1) h (makeLogger impl real).2 sh)).2
    = sh_calls sh ++ tr
    /\ status
         (outcome_val
            (run (logger_sink impl (makeLogger impl real).1) h
               (makeLogger impl real).2 sh)).1
       = track_status tr 0
    /\ (normal_operation tr = true ->
        (status
           (outcome_val
              (run (logger_sink impl (makeLogger impl real).1) h
                 (makeLogger impl real).2 sh)).1
         = 0
         <-> existsb (fun c => is_Write c || is_WriteHeader c || is_upgrade c) tr = false)
        /\ (forall tr1 tr2 tr3, tr = tr1 ++ tr2 ++ tr3 ->
              track_status tr1 0 <> 0 ->
              track_status (tr1 ++ tr2) 0 = track_status tr1 0)).
Proof.
  destruct (run_logger_tracks impl (makeLogger impl real).1 h
              (makeLogger impl real).2 sh) as (tr & H1 & H2 & _).
  assert (status (makeLogger impl real).2 = 0) as H0 by (by rewrite makeLogger_cases).
  rewrite H0 in H2.
  exists tr. split; [done|]. split; [done|]. intros H. split.
  - rewrite H2. apply track_status_unset_iff. by eapply normal_from_codes.
  - intros tr1 tr2 tr3 -> Hset. unfold normal_operation in H.
    rewrite normal_from_app in H. apply andb_true_iff in H as [_ H].
    rewrite normal_from_app in H. apply andb_true_iff in H as [H _].
    rewrite track_status_app. by apply normal_from_stable.
Qed.

End Status.

(** ** The logging decorator *)

Lemma last_WriteHeader_None tr :
  last_WriteHeader tr = None -> forallb (fun c => negb (is_WriteHeader c)) tr = true.
Proof.
  induction tr as [|c tr IH] using rev_ind; [done|].
  rewrite last_WriteHeader_snoc, forallb_app. intros H.
  destruct c; try done; cbn; rewrite andb_true_r; by apply IH.
Qed.

Lemma existsb_false_forallb {A} (p : A -> bool) (l : list A) :
  existsb p l = false -> forallb (fun x => negb (p x)) l = true.
Proof.
  induction l as [|x l IH]; cbn; [done|].
  intros [-> H]%orb_false_iff. by rewrite IH.
Qed.

Section Logging.
Context {RS : Type}.
Variable impl : ResponseWriter RS.
Variable GetTransactionIdFromRequest : Request -> string.
Variable SplitHostPort : string -> option (string * string).
Variable URL_RequestURI : URL -> string.

(** The decorator in terms of the run of the inner handler against the
    tracking writer. *)
Lemma logging_ServeHTTP_unfold out h real sh :
  transactionAwareRequestLoggingHandler_ServeHTTP impl GetTransactionIdFromRequest
    SplitHostPort URL_RequestURI (TransactionAwareRequestLoggingHandler out h) real sh
  = match run (logger_sink impl (makeLogger impl real).1) h (makeLogger impl real).2 sh with
    | Returned (cell', sh1) =>
        Returned
          (w cell',
           set_logrus
             (sh_logrus sh1
              ++ [mkEntry
                    (requestLog_fields SplitHostPort URL_RequestURI (sh_req sh1)
                       (GetTransactionIdFromRequest (sh_req sh))
                       (req_URL (sh_req sh)) (sh_now sh) (status cell') (size cell'))
                    ""]) sh1)
    | Panicked (cell', sh1) => Panicked (w cell', sh1)
    end.
Proof.
  unfold transactionAwareRequestLoggingHandler_ServeHTTP, writeRequestLog.
  destruct (makeLogger impl real) as [d cell]. cbn [fst snd lh_handler lh_writer
    TransactionAwareRequestLoggingHandler].
  destruct (run (logger_sink impl d) h cell sh) as [[cell' sh1]|[cell' sh1]];
    [|done].
  by rewrite call_Status_eq, call_Size_eq.
Qed.

(** When the decorator returns, the last entry logrus received is the
    request's record; its status and size are the folds of the calls the
    inner handler made, and its URI is chosen from the request as the
    handler left it and the URL as it was before. *)
Lemma logging_ServeHTTP_record out h real sh :
  has_returned
    (transactionAwareRequestLoggingHandler_ServeHTTP impl GetTransactionIdFromRequest
       SplitHostPort URL_RequestURI (TransactionAwareRequestLoggingHandler out h) real sh)
  = true ->
  exists tr rec,
    sh_calls
      (outcome_val
         (transactionAwareRequestLoggingHandler_ServeHTTP impl GetTransactionIdFromRequest
            SplitHostPort URL_RequestURI (TransactionAwareRequestLoggingHandler out h)
            real sh)).2
    = sh_calls sh ++ tr
    /\ last (sh_logrus
               (outcome_val
                  (transactionAwareRequestLoggingHandler_ServeHTTP impl
                     GetTransactionIdFromRequest SplitHostPort URL_RequestURI
                     (TransactionAwareRequestLoggingHandler out h) real sh)).2)
       = Some (mkEntry rec "")
    /\ f_status rec = track_status tr 0
    /\ f_size rec = track_size tr 0
    /\ f_uri rec
       = requestLog_uri URL_RequestURI
           (sh_req
              (outcome_val
                 (transactionAwareRequestLoggingHandler_ServeHTTP impl
                    GetTransactionIdFromRequest SplitHostPort URL_RequestURI
                    (TransactionAwareRequestLoggingHandler out h) real sh)).2)
           (req_URL (sh_req sh)).
Proof.
  rewrite logging_ServeHTTP_unfold.
  destruct (run_logger_tracks impl (makeLogger impl real).1 h
              (makeLogger impl real).2 sh) as (tr & H1 & H2 & H3).
  destruct (run (logger_sink impl (makeLogger impl real).1) h
              (makeLogger impl real).2 sh) as [[cell' sh1]|[cell' sh1]]; [|done].
  intros _. cbn in H1, H2, H3. rewrite makeLogger_cases in H2, H3. cbn in H2, H3.
  eexists tr, _. cbn. rewrite last_snoc. repeat apply conj; try done.
Qed.

(** No byte reaches any [io.Writer] while a request is served: the writer
    handed to [TransactionAwareRequestLoggingHandler] is carried along and
    never used. *)
Lemma logging_ServeHTTP_writers out h real sh :
  sh_writers
    (outcome_val
       (transactionAwareRequestLoggingHandler_ServeHTTP impl GetTransactionIdFromRequest
          SplitHostPort URL_RequestURI (TransactionAwareRequestLoggingHandler out h)
          real sh)).2
  = sh_writers sh.
Proof.
  rewrite logging_ServeHTTP_unfold.
  pose proof (run_writers (logger_sink impl (makeLogger impl real).1) h
                (makeLogger impl real).2 sh) as H.
  by destruct (run (logger_sink impl (makeLogger impl real).1) h
                 (makeLogger impl real).2 sh) as [[cell' sh1]|[cell' sh1]].
Qed.

(** C3, as amended: when the handler has returned, the status of the
    logged record is (a) the code of the last [WriteHeader] call the handler
    made, provided that code is not 0; (b) 200 if the handler made no
    [WriteHeader] call and no successful [Hijack] but at least one [Write]
    call; (c) 0 if it made no [Write] call, no [WriteHeader] call and no
    successful [Hijack]. *)
Theorem C3_logged_status out h real sh :
  has_returned
    (transactionAwareRequestLoggingHandler_ServeHTTP impl GetTransactionIdFromRequest
       SplitHostPort URL_RequestURI (TransactionAwareRequestLoggingHandler out h) real sh)
  = true ->
  exists tr rec,
    sh_calls
      (outcome_val
         (transactionAwareRequestLoggingHandler_ServeHTTP impl GetTransactionIdFromRequest
            SplitHostPort URL_RequestURI (TransactionAwareRequestLoggingHandler out h)
            real sh)).2
    = sh_calls sh ++ tr
    /\ last (sh_logrus
               (outcome_val
                  (transactionAwareRequestLoggingHandler_ServeHTTP impl
                     GetTransactionIdFromRequest SplitHostPort URL_RequestURI
                     (TransactionAwareRequestLoggingHandler out h) real sh)).2)
       = Some (mkEntry rec "")
    /\ (forall code, last_WriteHeader tr = Some code -> code <> 0 ->
          f_status rec = code)
    /\ (last_WriteHeader tr = None -> existsb is_upgrade tr = false ->
        existsb is_Write tr = true -> f_status rec = StatusOK)
    /\ (last_WriteHeader tr = None -> existsb is_upgrade tr = false ->
        existsb is_Write tr = false -> f_status rec = 0).
Proof.
  intros Hret.
  destruct (logging_ServeHTTP_record out h real sh Hret)
    as (tr & rec & Hcalls & Hlast & Hstatus & _ & _).
  exists tr, rec. repeat apply conj; try done.
  - intros code Hcode Hnz. rewrite Hstatus. by apply track_status_last_code.
  - intros Hwh Hup Hwr. rewrite Hstatus, track_status_writes_only, Hwr; try done.
    + by apply last_WriteHeader_None.
    + by apply existsb_false_forallb.
  - intros Hwh Hup Hwr. rewrite Hstatus, track_status_writes_only, Hwr; try done.
    + by apply last_WriteHeader_None.
    + by apply existsb_false_forallb.
Qed.

(** The URI [writeRequestLog] picks, case by case. *)
Lemma requestLog_uri_cases req url :
  ((req_ProtoMajor req = 2 /\ req_Method req = "CONNECT"%string) ->
     req_Host req <> ""%string -> requestLog_uri URL_RequestURI req url = req_Host req)
  /\ (~ (req_ProtoMajor req = 2 /\ req_Method req = "CONNECT"%string) ->
     req_RequestURI req <> ""%string ->
     requestLog_uri URL_RequestURI req url = req_RequestURI req)
  /\ ((req_ProtoMajor req = 2 /\ req_Method req = "CONNECT"%string) ->
     req_Host req = ""%string ->
     requestLog_uri URL_RequestURI req url = URL_RequestURI url)
  /\ (~ (req_ProtoMajor req = 2 /\ req_Method req = "CONNECT"%string) ->
     req_RequestURI req = ""%string ->
     requestLog_uri URL_RequestURI req url = URL_RequestURI url).
Proof.
  unfold requestLog_uri.
  destruct (Z.eqb_spec (req_ProtoMajor req) 2) as [Hp|Hp];
    destruct (String.eqb_spec (req_Method req) "CONNECT") as [Hm|Hm]; cbn;
    repeat apply conj; intros Hc Hu; try (exfalso; tauto);
    destruct (String.eqb_spec (req_Host req) "");
    destruct (String.eqb_spec (req_RequestURI req) ""); congruence.
Qed.

(** C7: the decorator returns exactly when the inner handler, run against
    the tracking writer, returns; it makes no call on the writer of its
    own.  When the handler has returned, the decorator appends exactly one
    entry to what logrus had received by then (the entries from before the
    request, then those of the handler itself), and that entry carries the
    status and size the tracking writer holds at the handler's return.
    When the handler panics, the decorator adds no entry. *)
Theorem C7_one_record_after_return out h real sh :
  let inner := run (logger_sink impl (makeLogger impl real).1) h (makeLogger impl real).2 sh in
  let served :=
    transactionAwareRequestLoggingHandler_ServeHTTP impl GetTransactionIdFromRequest
      SplitHostPort URL_RequestURI (TransactionAwareRequestLoggingHandler out h) real sh in
  has_returned served = has_returned inner
  /\ (outcome_val served).1 = w (outcome_val inner).1
  /\ sh_calls (outcome_val served).2 = sh_calls (outcome_val inner).2
  /\ (exists es, sh_logrus (outcome_val inner).2 = sh_logrus sh ++ es)
  /\ (has_returned inner = true ->
      exists rec,
        sh_logrus (outcome_val served).2
        = sh_logrus (outcome_val inner).2 ++ [mkEntry rec ""]
        /\ f_status rec = status (outcome_val inner).1
        /\ f_size rec = size (outcome_val inner).1
        /\ f_time rec = sh_now sh)
  /\ (has_returned inner = false ->
      sh_logrus (outcome_val served).2 = sh_logrus (outcome_val inner).2).
Proof.
  cbn zeta. rewrite logging_ServeHTTP_unfold.
  pose proof (run_logrus_prefix (logger_sink impl (makeLogger impl real).1) h
                (makeLogger impl real).2 sh) as Hpre.
  destruct (run (logger_sink impl (makeLogger impl real).1) h
              (makeLogger impl real).2 sh) as [[cell' sh1]|[cell' sh1]];
    cbn in *; repeat apply conj; try done.
  intros _. by eexists.
Qed.

(** C8: when the handler has returned, the URI of the logged record is the
    request's raw [RequestURI], unless the request is an HTTP/2 CONNECT, in
    which case it is the request's [Host]; and when the string so chosen is
    empty, it is the URI rebuilt from the copy of the request's URL taken
    before the inner handler ran.  (The request itself is read after the
    handler has returned.) *)
Theorem C8_logged_uri out h real sh :
  has_returned
    (transactionAwareRequestLoggingHandler_ServeHTTP impl GetTransactionIdFromRequest
       SplitHostPort URL_RequestURI (TransactionAwareRequestLoggingHandler out h) real sh)
  = true ->
  exists rec,
    last (sh_logrus
            (outcome_val
               (transactionAwareRequestLoggingHandler_ServeHTTP impl
                  GetTransactionIdFromRequest SplitHostPort URL_RequestURI
                  (TransactionAwareRequestLoggingHandler out h) real sh)).2)
    = Some (mkEntry rec "")
    /\ let req' :=
         sh_req
           (outcome_val
              (transactionAwareRequestLoggingHandler_ServeHTTP impl
                 GetTransactionIdFromRequest SplitHostPort URL_RequestURI
                 (TransactionAwareRequestLoggingHandler out h) real sh)).2 in
       let snapshot := req_URL (sh_req sh) in
       ((req_ProtoMajor req' = 2 /\ req_Method req' = "CONNECT"%string) ->
          req_Host req' <> ""%string -> f_uri rec = req_Host req')
       /\ (~ (req_ProtoMajor req' = 2 /\ req_Method req' = "CONNECT"%string) ->
          req_RequestURI req' <> ""%string -> f_uri rec = req_RequestURI req')
       /\ ((req_ProtoMajor req' = 2 /\ req_Method req' = "CONNECT"%string) ->
          req_Host req' = ""%string -> f_uri rec = URL_RequestURI snapshot)
       /\ (~ (req_ProtoMajor req' = 2 /\ req_Method req' = "CONNECT"%string) ->
          req_RequestURI req' = ""%string -> f_uri rec = URL_RequestURI snapshot).
Proof.
  intros Hret.
  destruct (logging_ServeHTTP_record out h real sh Hret)
    as (tr & rec & _ & Hlast & _ & _ & Huri).
  exists rec. split; [done|]. cbn zeta. rewrite Huri.
  apply requestLog_uri_cases.
Qed.

End Logging.

(** ** The timing decorator *)

Lemma Timer_Update_registered name d (r : gmap string (list Z)) :
  Timer_Update name d (GetOrRegisterTimer name r)
  = <[name := default [] (r !! name) ++ [d]]> r.
Proof.
  unfold Timer_Update, GetOrRegisterTimer.
  destruct (r !! name) as [samples|] eqn:E.
  - by rewrite E.
  - by rewrite lookup_insert_eq, insert_insert_eq.
Qed.

Section Timing.
Context {RS : Type}.
Variable impl : ResponseWriter RS.

(** Run against the real writer itself, a handler's calls are the real
    writer's own: replaying them on it reproduces its final state. *)
Lemma run_real_forwards h real sh :
  exists tr,
    sh_calls (outcome_val (run (real_sink impl) h real sh)).2 = sh_calls sh ++ tr
    /\ forwarded impl tr real = Some (outcome_val (run (real_sink impl) h real sh)).1.
Proof.
  revert real sh.
  induction h as [| |i k IH|key v k IH|b k IH|s k IH|k IH|k IH|k IH|f k IH|dt k IH|e k IH];
    intros real sh; cbn;
    try (by exists []; rewrite app_nil_r); try exact (IH _ _); try exact (IH _ _ _).
  - destruct (IH (rw_HeaderSet impl key v real) (record_call (CHeaderSet key v) sh))
      as (tr & H1 & H2).
    exists (CHeaderSet key v :: tr). rewrite H1. cbn. by rewrite <- app_assoc.
  - destruct (rw_Write impl b real) as [[n err] real'] eqn:Ew.
    destruct (IH n err real' (record_call (CWrite b n err) sh)) as (tr & H1 & H2).
    exists (CWrite b n err :: tr). rewrite H1. cbn. rewrite <- app_assoc.
    split; [done|]. by rewrite Ew, !bool_decide_eq_true_2.
  - destruct (IH (rw_WriteHeader impl s real) (record_call (CWriteHeader s) sh))
      as (tr & H1 & H2).
    exists (CWriteHeader s :: tr). rewrite H1. cbn. by rewrite <- app_assoc.
  - destruct (rw_Flush impl) as [flush|] eqn:Ef; cbn;
      [|by exists []; rewrite app_nil_r].
    destruct (IH (flush real) (record_call CFlush sh)) as (tr & H1 & H2).
    exists (CFlush :: tr). rewrite H1. cbn. rewrite <- app_assoc.
    split; [done|]. by rewrite Ef.
  - destruct (rw_Hijack impl) as [hijack|] eqn:Eh; cbn;
      [|by exists []; rewrite app_nil_r].
    destruct (hijack real) as [r real'] eqn:Ehr.
    destruct (IH r real' (record_call (CHijack r) sh)) as (tr & H1 & H2).
    exists (CHijack r :: tr). rewrite H1. cbn. rewrite <- app_assoc.
    split; [done|]. by rewrite Eh, Ehr, bool_decide_eq_true_2.
  - destruct (rw_CloseNotify impl) as [cn|] eqn:Ec; cbn;
      [|by exists []; rewrite app_nil_r].
    destruct (cn real) as [c real'] eqn:Ecr.
    destruct (IH c real' (record_call (CCloseNotify c) sh)) as (tr & H1 & H2).
    exists (CCloseNotify c :: tr). rewrite H1. cbn. rewrite <- app_assoc.
    split; [done|]. by rewrite Ec, Ecr, bool_decide_eq_true_2.
Qed.

(** C9, as amended: the timing decorator hands the inner handler the real
    writer itself: the handler's type assertions see the real writer's
    method set, every call it makes is a call on the real writer with the
    same arguments and results (replaying the recorded calls on the real
    writer reproduces the state it is left in), and the decorator returns
    exactly when the handler returns, changing nothing in the world but the
    timer registry.  When the handler has returned, the timer named by the
    method the request had on arrival holds its earlier samples followed by
    exactly one new sample, the time elapsed during the run (the timer is
    created if the registry did not have it), and every other timer is
    unchanged.  When the handler panics, the timer is registered but
    receives no sample. *)
Theorem C9_timing_decorator h real sh :
  let inner := run (real_sink impl) h real sh in
  let served := httpMetricsHandler_ServeHTTP impl (HTTPMetricsHandler h) real sh in
  let name := req_Method (sh_req sh) in
  sink_methods (real_sink impl) = rw_methods impl
  /\ (exists tr,
        sh_calls (outcome_val served).2 = sh_calls sh ++ tr
        /\ forwarded impl tr real = Some (outcome_val served).1)
  /\ has_returned served = has_returned inner
  /\ (outcome_val served).1 = (outcome_val inner).1
  /\ set_registry (sh_registry sh) (outcome_val served).2 = (outcome_val inner).2
  /\ (has_returned inner = true ->
      sh_registry (outcome_val served).2 !! name
      = Some (default [] (sh_registry sh !! name)
              ++ [sh_now (outcome_val inner).2 - sh_now sh])
      /\ forall other, other <> name ->
           sh_registry (outcome_val served).2 !! other = sh_registry sh !! other)
  /\ (has_returned inner = false ->
      sh_registry (outcome_val served).2 = GetOrRegisterTimer name (sh_registry sh)).
Proof.
  cbn zeta. split; [reflexivity|].
  unfold httpMetricsHandler_ServeHTTP, Timer_Time.
  cbn [mh_handler HTTPMetricsHandler]. rewrite run_set_registry.
  pose proof (run_registry (real_sink impl) h real sh) as Hreg.
  destruct (run_real_forwards h real sh) as (tr & Hcalls & Hfwd).
  destruct (run (real_sink impl) h real sh) as [[real' sh1]|[real' sh1]];
    cbn in *; repeat apply conj; try done; try (by exists tr).
  - destruct sh1; cbn in *. by rewrite Hreg.
  - intros _. rewrite Timer_Update_registered. split.
    + by rewrite lookup_insert_eq.
    + intros other Hne. by rewrite lookup_insert_ne.
  - destruct sh1; cbn in *. by rewrite Hreg.
Qed.

End Timing.

(** ** The decorators at work *)

(** The four outcomes of [makeLogger] on recorders with neither capability,
    upgrade only, close-notify only, and both. *)
Example makeLogger_four_ways :
  (makeLogger (recorder false false false false None) new_recorder).1
  = ptr_responseLogger
  /\ (makeLogger (recorder false true false false None) new_recorder).1
     = ptr_hijackLogger
  /\ (makeLogger (recorder false false true false None) new_recorder).1
     = ptr_closeNotifyWriter ptr_responseLogger
  /\ (makeLogger (recorder false true true false None) new_recorder).1
     = val_hijackCloseNotifier ptr_hijackLogger ptr_hijackLogger.
Proof. repeat split. Qed.

(** A handler that answers 404 and writes five bytes is logged with status
    404 and size 5, under the transaction ID of the request. *)
Example logged_not_found :
  (fun e => (f_transaction_id (entry_fields e), f_method (entry_fields e),
             f_status (entry_fields e), f_size (entry_fields e)))
    <$> sh_logrus (outcome_val (serve_logged plain_writer sample_request not_found_handler)).2
  = [("tid_abc123"%string, "GET"%string, 404, 5)].
Proof. reflexivity. Qed.

(** A handler that writes without setting a status is logged with 200. *)
Example logged_implicit_ok :
  logged_statuses (outcome_val (serve_logged plain_writer sample_request write_handler)).2
  = [200]
  /\ logged_sizes (outcome_val (serve_logged plain_writer sample_request write_handler)).2
     = [5].
Proof. split; reflexivity. Qed.

(** An HTTP/2 CONNECT request with an empty raw URI is logged under its
    authority. *)
Example logged_connect_authority :
  logged_uris (outcome_val (serve_logged plain_writer connect_request write_handler)).2
  = ["proxy.example:443"%string].
Proof. reflexivity. Qed.

(** A handler that empties the raw URI and replaces the URL is logged under
    the URL the request arrived with. *)
Example logged_uri_from_snapshot :
  req_URL (sh_req (outcome_val (serve_logged plain_writer sample_request rewriting_handler)).2)
  = mkURL "" "" None "" "/rewritten" ""
  /\ logged_uris (outcome_val (serve_logged plain_writer sample_request rewriting_handler)).2
     = ["/things?limit=3"%string].
Proof. split; reflexivity. Qed.

(** An unguarded [Hijack] on a writer that cannot be hijacked panics, and the
    request leaves no record. *)
Example panicking_handler_leaves_no_record :
  has_returned (serve_logged plain_writer sample_request upgrade_handler) = false
  /\ sh_logrus (outcome_val (serve_logged plain_writer sample_request upgrade_handler)).2
     = [].
Proof. split; reflexivity. Qed.

(** C1, counterexample: a real writer with no optional method at all fails
    the [http.Flusher] assertion, yet the writer [makeLogger] builds over it
    passes it: the two capability sets differ, a capability has been added. *)
Lemma C1_Flusher_is_added :
  implements (rw_methods plain_writer) http_Hijacker = false
  /\ implements (rw_methods plain_writer) http_CloseNotifier = false
  /\ implements (rw_methods plain_writer) http_Flusher = false
  /\ implements (method_set (makeLogger plain_writer new_recorder).1) http_Flusher = true
  /\ implements (method_set (makeLogger plain_writer new_recorder).1) http_Flusher
     <> implements (rw_methods plain_writer) http_Flusher.
Proof. repeat split. discriminate. Qed.

(** C2, at the failing input: serving a request through the handler built
    with [io.Writer] number 3 returns, logrus receives the record (status
    404), and writer 3 has received nothing, before or after. *)
Theorem C2_record_bypasses_writer :
  lh_writer (TransactionAwareRequestLoggingHandler 3%nat not_found_handler) = 3%nat
  /\ has_returned (serve_logged plain_writer sample_request not_found_handler) = true
  /\ logged_statuses
       (outcome_val (serve_logged plain_writer sample_request not_found_handler)).2
     = [404]
  /\ sh_writers (sample_world sample_request) !! 3%nat = None
  /\ sh_writers
       (outcome_val (serve_logged plain_writer sample_request not_found_handler)).2
     !! 3%nat = None.
Proof.
  repeat apply conj; reflexivity.
Qed.

(** C3, counterexample: a handler that only upgrades the connection makes
    no [Write] call and no [WriteHeader] call, and is logged with 101, not
    0; a handler that calls [WriteHeader(0)] and then writes is logged with
    200, not with the code of its last [WriteHeader] call. *)
Lemma C3_status_counterexample :
  sh_calls (outcome_val (serve_logged upgrade_writer sample_request upgrade_handler)).2
  = [CHijack (mkHijackResult (Some 1%nat) (Some 1%nat) None)]
  /\ existsb is_Write
       (sh_calls (outcome_val (serve_logged upgrade_writer sample_request upgrade_handler)).2)
     = false
  /\ last_WriteHeader
       (sh_calls (outcome_val (serve_logged upgrade_writer sample_request upgrade_handler)).2)
     = None
  /\ logged_statuses
       (outcome_val (serve_logged upgrade_writer sample_request upgrade_handler)).2
     = [101]
  /\ logged_statuses
       (outcome_val (serve_logged upgrade_writer sample_request upgrade_handler)).2
     <> [0]
  /\ sh_calls (outcome_val (serve_logged plain_writer sample_request zero_code_handler)).2
     = [CWriteHeader 0; CWrite hello 5 None]
  /\ last_WriteHeader
       (sh_calls (outcome_val (serve_logged plain_writer sample_request zero_code_handler)).2)
     = Some 0
  /\ logged_statuses
       (outcome_val (serve_logged plain_writer sample_request zero_code_handler)).2
     = [200]
  /\ logged_statuses
       (outcome_val (serve_logged plain_writer sample_request zero_code_handler)).2
     <> [0].
Proof. repeat apply conj; try reflexivity; discriminate. Qed.

(** C4, counterexample: the handler passes five bytes to [Write], the real
    writer refuses them (it reports 0 bytes and an error), and the logged
    size is 0, not 5. *)
Lemma C4_refused_write_counterexample :
  sh_calls (outcome_val (serve_logged broken_writer sample_request write_handler)).2
  = [CWrite hello 0 (Some "broken pipe"%string)]
  /\ bytes_passed
       (sh_calls (outcome_val (serve_logged broken_writer sample_request write_handler)).2)
     = 5
  /\ logged_sizes (outcome_val (serve_logged broken_writer sample_request write_handler)).2
     = [0]
  /\ logged_sizes (outcome_val (serve_logged broken_writer sample_request write_handler)).2
     <> [bytes_passed
           (sh_calls
              (outcome_val (serve_logged broken_writer sample_request write_handler)).2)].
Proof. repeat apply conj; try reflexivity; discriminate. Qed.

(** Outside normal operation the last [WriteHeader] wins: after
    [WriteHeader(404)] the status is 404, a second [WriteHeader(500)]
    replaces it by 500, and 500 is what gets logged. *)
Example WriteHeader_last_call_wins :
  status (call_WriteHeader plain_writer (makeLogger plain_writer new_recorder).1 404
            (makeLogger plain_writer new_recorder).2)
  = 404
  /\ status (call_WriteHeader plain_writer (makeLogger plain_writer new_recorder).1 500
               (call_WriteHeader plain_writer (makeLogger plain_writer new_recorder).1 404
                  (makeLogger plain_writer new_recorder).2))
     = 500
  /\ status (call_WriteHeader plain_writer (makeLogger plain_writer new_recorder).1 500
               (call_WriteHeader plain_writer (makeLogger plain_writer new_recorder).1 404
                  (makeLogger plain_writer new_recorder).2))
     <> status (call_WriteHeader plain_writer (makeLogger plain_writer new_recorder).1 404
                  (makeLogger plain_writer new_recorder).2)
  /\ logged_statuses (outcome_val (serve_logged plain_writer sample_request twice_handler)).2
     = [500].
Proof. repeat apply conj; try reflexivity; discriminate. Qed.

(** C9, counterexample: a handler that writes five bytes and then panics
    has been invoked on the real writer (the write reached it), the timer
    for the request's method has been created, and it holds no sample at
    all, not one. *)
Lemma C9_panic_leaves_no_sample :
  has_returned (serve_timed plain_writer sample_request panicking_handler) = false
  /\ sh_calls (outcome_val (serve_timed plain_writer sample_request panicking_handler)).2
     = [CWrite hello 5 None]
  /\ sh_registry (outcome_val (serve_timed plain_writer sample_request panicking_handler)).2
     !! "GET"%string
     = Some []
  /\ length
       (default [0]
          (sh_registry
             (outcome_val (serve_timed plain_writer sample_request panicking_handler)).2
           !! "GET"%string))
     <> 1%nat.
Proof. repeat apply conj; try reflexivity; discriminate. Qed.

(** ** The theorems at concrete inputs *)

(** C3 on the handler that answers 404 with a body, over a plain recorder. *)
Lemma C3_logged_status_witness :
  has_returned (serve_logged plain_writer sample_request not_found_handler) = true
  /\ exists rec,
       last (sh_logrus
               (outcome_val (serve_logged plain_writer sample_request not_found_handler)).2)
       = Some (mkEntry rec "")
       /\ f_status rec = 404.
Proof.
  split; [reflexivity|].
  destruct (C3_logged_status plain_writer sample_transaction_id sample_SplitHostPort
              sample_RequestURI 3%nat not_found_handler new_recorder
              (sample_world sample_request) eq_refl)
    as (tr & rec & Hcalls & Hlast & Hcode & _).
  exists rec. split; [exact Hlast|].
  apply Hcode; [|discriminate].
  vm_compute in Hcalls. rewrite <- Hcalls. reflexivity.
Defined.

(** C5 on the handler that answers 404 and then writes a body. *)
Lemma C5_status_invariant_witness :
  normal_operation
    (sh_calls
       (outcome_val
          (run (logger_sink plain_writer (makeLogger plain_writer new_recorder).1)
             not_found_handler (makeLogger plain_writer new_recorder).2
             (sample_world sample_request))).2)
  = true
  /\ status
       (outcome_val
          (run (logger_sink plain_writer (makeLogger plain_writer new_recorder).1)
             not_found_handler (makeLogger plain_writer new_recorder).2
             (sample_world sample_request))).1
     = 404.
Proof.
  split; [reflexivity|].
  destruct (C5_status_invariant plain_writer new_recorder not_found_handler
              (sample_world sample_request)) as (tr & Hcalls & Hstatus & Hnormal).
  vm_compute in Hcalls. rewrite <- Hcalls in Hstatus, Hnormal.
  destruct (Hnormal eq_refl) as [_ Hstable].
  rewrite Hstatus.
  exact (Hstable [CWriteHeader 404] [CWrite hello 5 None] [] eq_refl ltac:(discriminate)).
Defined.

(** C6 on a successful upgrade of a fresh tracking writer. *)
Lemma C6_Hijack_forwarded_witness :
  rw_Hijack upgrade_writer = Some (recorder_Hijack None)
  /\ implements (method_set (makeLogger upgrade_writer new_recorder).1) http_Hijacker = true
  /\ call_Hijack upgrade_writer (makeLogger upgrade_writer new_recorder).1
       (makeLogger upgrade_writer new_recorder).2
     = Some (mkHijackResult (Some 1%nat) (Some 1%nat) None,
             mkResponseLogger (mkRecorder 0 [] [] 0 true) 101 0).
Proof.
  split; [reflexivity|].
  exact (C6_Hijack_forwarded upgrade_writer new_recorder (recorder_Hijack None)
           (makeLogger upgrade_writer new_recorder).2 eq_refl).
Defined.

(** C7 on the handler that answers 404 with a body. *)
Lemma C7_one_record_after_return_witness :
  has_returned
    (run (logger_sink plain_writer (makeLogger plain_writer new_recorder).1)
       not_found_handler (makeLogger plain_writer new_recorder).2
       (sample_world sample_request))
  = true
  /\ exists rec,
       sh_logrus (outcome_val (serve_logged plain_writer sample_request not_found_handler)).2
       = sh_logrus
           (outcome_val
              (run (logger_sink plain_writer (makeLogger plain_writer new_recorder).1)
                 not_found_handler (makeLogger plain_writer new_recorder).2
                 (sample_world sample_request))).2
         ++ [mkEntry rec ""]
       /\ f_status rec = 404
       /\ f_size rec = 5
       /\ f_time rec = 1000.
Proof.
  split; [reflexivity|].
  exact (proj1 (proj2 (proj2 (proj2 (proj2
           (C7_one_record_after_return plain_writer sample_transaction_id
              sample_SplitHostPort sample_RequestURI 3%nat not_found_handler
              new_recorder (sample_world sample_request))))))
           eq_refl).
Defined.

(** C8 on the HTTP/2 CONNECT request of the specification. *)
Lemma C8_logged_uri_witness :
  has_returned (serve_logged plain_writer connect_request write_handler) = true
  /\ exists rec,
       last (sh_logrus
               (outcome_val (serve_logged plain_writer connect_request write_handler)).2)
       = Some (mkEntry rec "")
       /\ f_uri rec = "proxy.example:443"%string.
Proof.
  split; [reflexivity|].
  destruct (C8_logged_uri plain_writer sample_transaction_id sample_SplitHostPort
              sample_RequestURI 3%nat write_handler new_recorder
              (sample_world connect_request) eq_refl)
    as (rec & Hlast & Hconnect & _).
  exists rec. split; [exact Hlast|].
  apply Hconnect; [split; reflexivity|discriminate].
Defined.

(** C9 on a handler that takes 250 ns, with an empty registry. *)
Lemma C9_timing_decorator_witness :
  has_returned (run (real_sink plain_writer) slow_handler new_recorder
                  (sample_world sample_request))
  = true
  /\ sh_registry (outcome_val (serve_timed plain_writer sample_request slow_handler)).2
     !! "GET"%string
     = Some [250].
Proof.
  split; [reflexivity|].
  exact (proj1 (proj1 (proj2 (proj2 (proj2 (proj2 (proj2
           (C9_timing_decorator plain_writer slow_handler new_recorder
              (sample_world sample_request)))))))
           eq_refl)).
Defined.

(** ** Further properties of the tracking writer *)

Section Forwarding.
Context {RS : Type}.
Variable impl : ResponseWriter RS.

(** On a value [makeLogger] returns, [Hijack] is the method of
    [*hijackLogger] when the real writer can be hijacked, and a panic
    otherwise, which is also what that method does then. *)
Lemma call_Hijack_makeLogger (real : RS) (l : responseLogger RS) :
  call_Hijack impl (makeLogger impl real).1 l = hijackLogger_Hijack impl l.
Proof.
  rewrite makeLogger_cases.
  destruct (rw_Hijack impl) eqn:Eh, (rw_CloseNotify impl); cbn; try reflexivity;
    unfold hijackLogger_Hijack; by rewrite Eh.
Qed.

Lemma call_CloseNotify_makeLogger (real : RS) (l : responseLogger RS) :
  call_CloseNotify impl (makeLogger impl real).1 l
  = match rw_CloseNotify impl with
    | Some closeNotify =>
        Some ((closeNotify (w l)).1,
              mkResponseLogger (closeNotify (w l)).2 (status l) (size l))
    | None => None
    end.
Proof.
  rewrite makeLogger_cases. unfold call_CloseNotify.
  destruct (rw_Hijack impl), (rw_CloseNotify impl) as [cn|]; try reflexivity;
    by destruct (cn (w l)).
Qed.

(** The type assertions on which the tracking writer and the real writer
    agree. *)
Lemma makeLogger_probe_agrees (real : RS) (i : Interface) :
  i <> loggingResponseWriter_iface ->
  (i = http_Flusher -> has_Flush impl = true) ->
  implements (method_set (makeLogger impl real).1) i = implements (rw_methods impl) i.
Proof.
  rewrite makeLogger_cases. unfold rw_methods, has_Flush.
  intros Hi Hf.
  destruct i; try done;
    destruct (rw_Flush impl), (rw_Hijack impl), (rw_CloseNotify impl);
    try reflexivity; by specialize (Hf eq_refl).
Qed.

(** X4: on the writer built over a real writer that can notify of a closed
    connection, [CloseNotify] is available and never panics; it returns the
    channel the real writer returns and leaves the tracked status and size
    as they were. *)
Theorem CloseNotify_forwarded (real : RS) (closeNotify : RS -> Chan * RS)
    (l : responseLogger RS) :
  rw_CloseNotify impl = Some closeNotify ->
  implements (method_set (makeLogger impl real).1) http_CloseNotifier = true
  /\ call_CloseNotify impl (makeLogger impl real).1 l
     = Some ((closeNotify (w l)).1,
             mkResponseLogger (closeNotify (w l)).2 (status l) (size l)).
Proof.
  intros Hc. split.
  - rewrite makeLogger_cases, Hc. by destruct (rw_Hijack impl).
  - by rewrite call_CloseNotify_makeLogger, Hc.
Qed.

(** X7: on any value [makeLogger] returns, only [Write] changes the tracked
    size: it adds, with Go's wrap-around, the count the real writer reports,
    and hands that count and error back to the caller unchanged; when the
    count is not negative and the sum fits an [int], the size does not
    decrease.  [WriteHeader], [Header], [Flush], [Hijack] and [CloseNotify]
    leave the size alone. *)
Theorem size_transitions (real : RS) (l : responseLogger RS) :
  (forall b,
     (call_Write impl (makeLogger impl real).1 b l).1 = (rw_Write impl b (w l)).1
     /\ size (call_Write impl (makeLogger impl real).1 b l).2
        = wrap_int (size l + (rw_Write impl b (w l)).1.1)
     /\ (0 <= (rw_Write impl b (w l)).1.1 ->
         in_int_range (size l + (rw_Write impl b (w l)).1.1) ->
         size l <= size (call_Write impl (makeLogger impl real).1 b l).2))
  /\ (forall s, size (call_WriteHeader impl (makeLogger impl real).1 s l) = size l)
  /\ (forall k v, size (call_HeaderSet impl (makeLogger impl real).1 k v l) = size l)
  /\ (forall l', call_Flush impl (makeLogger impl real).1 l = Some l' -> size l' = size l)
  /\ (forall r l', call_Hijack impl (makeLogger impl real).1 l = Some (r, l') ->
        size l' = size l)
  /\ (forall c l', call_CloseNotify impl (makeLogger impl real).1 l = Some (c, l') ->
        size l' = size l).
Proof.
  repeat apply conj.
  - intros b. rewrite call_Write_eq. pose proof (Write_tracks impl b l) as H.
    destruct (responseLogger_Write impl b l) as [[n err] l'].
    destruct H as (Hw & _ & Hn). rewrite <- Hw. cbn in *.
    repeat apply conj; try done.
    intros Hpos Hrange. rewrite Hn, wrap_int_in_range by done. lia.
  - intros s. by rewrite call_WriteHeader_eq.
  - intros k v. by rewrite call_HeaderSet_eq.
  - intros l'. rewrite call_Flush_eq. intros [= <-].
    unfold responseLogger_Flush. by destruct (rw_Flush impl).
  - intros r l'. rewrite call_Hijack_makeLogger. intros H.
    by destruct (Hijack_tracks impl _ _ _ H) as [_ ->].
  - intros c l'. rewrite call_CloseNotify_makeLogger.
    destruct (rw_CloseNotify impl); [|done]. by intros [= <- <-].
Qed.

(** The real writer behind the cell receives every call of a run, in order,
    and its answers are the ones the handler was given. *)
Lemma run_logger_forwards (real : RS) h (l : responseLogger RS) sh :
  exists tr,
    sh_calls (outcome_val (run (logger_sink impl (makeLogger impl real).1) h l sh)).2
    = sh_calls sh ++ tr
    /\ forwarded impl tr (w l)
       = Some (w (outcome_val (run (logger_sink impl (makeLogger impl real).1) h l sh)).1).
Proof.
  revert l sh.
  induction h as [| |i k IH|key v k IH|b k IH|s k IH|k IH|k IH|k IH|f k IH|dt k IH|e k IH];
    intros l sh; cbn -[call_Write call_Hijack call_CloseNotify];
    try (by exists []; rewrite app_nil_r); try exact (IH _ _); try exact (IH _ _ _).
  - destruct (IH (call_HeaderSet impl (makeLogger impl real).1 key v l)
                (record_call (CHeaderSet key v) sh)) as (tr & H1 & H2).
    exists (CHeaderSet key v :: tr). rewrite H1. cbn. rewrite <- app_assoc.
    split; [done|]. rewrite <- H2. by rewrite call_HeaderSet_eq.
  - rewrite call_Write_eq. pose proof (Write_tracks impl b l) as Hw.
    destruct (responseLogger_Write impl b l) as [[n err] l'].
    destruct Hw as (Hw & _ & _).
    destruct (IH n err l' (record_call (CWrite b n err) sh)) as (tr & H1 & H2).
    exists (CWrite b n err :: tr). rewrite H1. cbn. rewrite <- app_assoc.
    split; [done|]. rewrite <- Hw, <- H2. by rewrite !bool_decide_eq_true_2.
  - destruct (IH (call_WriteHeader impl (makeLogger impl real).1 s l)
                (record_call (CWriteHeader s) sh)) as (tr & H1 & H2).
    exists (CWriteHeader s :: tr). rewrite H1. cbn. rewrite <- app_assoc.
    split; [done|]. rewrite <- H2. by rewrite call_WriteHeader_eq.
  - rewrite call_Flush_eq.
    destruct (IH (responseLogger_Flush impl l) (record_call CFlush sh))
      as (tr & H1 & H2).
    exists (CFlush :: tr). rewrite H1. cbn. rewrite <- app_assoc.
    split; [done|]. rewrite <- H2. unfold responseLogger_Flush.
    by destruct (rw_Flush impl).
  - rewrite call_Hijack_makeLogger. unfold hijackLogger_Hijack.
    destruct (rw_Hijack impl) as [hijack|] eqn:Eh;
      [|by exists []; rewrite app_nil_r].
    destruct (hijack (w l)) as [r w'] eqn:Ehw.
    set (l' := if bool_decide (hj_err r = None) && (status (with_w w' l) =? 0)
               then with_status StatusSwitchingProtocols (with_w w' l)
               else with_w w' l).
    assert (w l' = w') as Hl'
      by (subst l';
          by destruct (bool_decide (hj_err r = None) && (status (with_w w' l) =? 0))).
    destruct (IH r l' (record_call (CHijack r) sh)) as (tr & H1 & H2).
    exists (CHijack r :: tr). rewrite H1. cbn [forwarded sh_calls record_call].
    rewrite <- app_assoc. split; [done|].
    rewrite Eh, Ehw, bool_decide_eq_true_2 by done. rewrite <- Hl'. exact H2.
  - rewrite call_CloseNotify_makeLogger.
    destruct (rw_CloseNotify impl) as [cn|] eqn:Ec;
      [|by exists []; rewrite app_nil_r].
    destruct (cn (w l)) as [c w'] eqn:Ecw. cbn [fst snd].
    destruct (IH c (mkResponseLogger w' (status l) (size l))
                (record_call (CCloseNotify c) sh)) as (tr & H1 & H2).
    exists (CCloseNotify c :: tr). rewrite H1. cbn. rewrite <- app_assoc.
    split; [done|]. rewrite <- H2. by rewrite Ec, Ecw, bool_decide_eq_true_2.
Qed.

(** Run against the tracking writer, an oblivious handler does to the real
    writer and to the world exactly what it does when run against the real
    writer itself. *)
Lemma run_logger_transparent (real : RS) h (l : responseLogger RS) sh :
  oblivious (has_Flush impl) h ->
  map_outcome (fun x => (w x.1, x.2))
    (run (logger_sink impl (makeLogger impl real).1) h l sh)
  = run (real_sink impl) h (w l) sh.
Proof.
  revert l sh.
  induction h as [| |i k IH|key v k IH|b k IH|s k IH|k IH|k IH|k IH|f k IH|dt k IH|e k IH];
    intros l sh Hob; cbn -[call_Write call_Hijack call_CloseNotify] in *;
    try done; try (by apply IH).
  - destruct Hob as (Hi & Hf & Hk).
    rewrite (makeLogger_probe_agrees real i Hi Hf). by apply IH.
  - rewrite call_HeaderSet_eq. by rewrite IH.
  - rewrite call_Write_eq. pose proof (Write_tracks impl b l) as Hw.
    destruct (responseLogger_Write impl b l) as [[n err] l'].
    destruct Hw as (Hw & _ & _). rewrite <- Hw. by apply IH.
  - rewrite call_WriteHeader_eq. by rewrite IH.
  - destruct Hob as [Hf Hk]. rewrite call_Flush_eq.
    unfold responseLogger_Flush, has_Flush in *.
    destruct (rw_Flush impl) as [flush|]; [|done]. cbn. by rewrite IH.
  - rewrite call_Hijack_makeLogger. unfold hijackLogger_Hijack.
    destruct (rw_Hijack impl) as [hijack|]; [|done]. cbn.
    destruct (hijack (w l)) as [r w']. rewrite IH by done.
    by destruct (bool_decide (hj_err r = None) && (status l =? 0)).
  - rewrite call_CloseNotify_makeLogger.
    destruct (rw_CloseNotify impl) as [cn|]; [|done]. cbn.
    destruct (cn (w l)) as [c w']. by rewrite IH.
Qed.

(** Against the tracking writer a disciplined handler never panics: the
    unguarded assertion inside [hijackLogger.Hijack] and the embedded
    [http.CloseNotifier] never fail it. *)
Lemma run_logger_disciplined (real : RS) h (l : responseLogger RS) sh :
  disciplined (method_set (makeLogger impl real).1) h ->
  has_returned (run (logger_sink impl (makeLogger impl real).1) h l sh) = true.
Proof.
  revert l sh.
  induction h as [| |i k IH|key v k IH|b k IH|s k IH|k IH|k IH|k IH|f k IH|dt k IH|e k IH];
    intros l sh Hd; cbn -[call_Write call_Hijack call_CloseNotify] in *;
    try done; try (by apply IH).
  - destruct (call_Write impl (makeLogger impl real).1 b l) as [[n err] l'].
    by apply IH.
  - destruct Hd as [_ Hk]. rewrite call_Flush_eq. by apply IH.
  - destruct Hd as [Hm Hk].
    destruct (makeLogger_calls_agree_with_probes impl real l) as (_ & [_ Hh] & _).
    destruct (Hh Hm) as [[r l'] ->]. by apply IH.
  - destruct Hd as [Hm Hk].
    destruct (makeLogger_calls_agree_with_probes impl real l) as (_ & _ & [_ Hc]).
    destruct (Hc Hm) as [[c l'] ->]. by apply IH.
Qed.

End Forwarding.

(** ** Further properties of the logged record *)

(** Where a tracked status can come from: it is the status the fold started
    with, or 200 on account of a [Write], or 101 on account of a successful
    upgrade, or a code passed to [WriteHeader]. *)
Lemma track_status_origin tr s0 :
  track_status tr s0 = s0
  \/ (track_status tr s0 = StatusOK /\ existsb is_Write tr = true)
  \/ (track_status tr s0 = StatusSwitchingProtocols /\ existsb is_upgrade tr = true)
  \/ CWriteHeader (track_status tr s0) ∈ tr.
Proof.
  induction tr as [|c tr IH] using rev_ind; [by left|].
  rewrite track_status_app, !existsb_app. cbn [track_status fold_left existsb].
  rewrite !orb_false_r.
  assert (status_step (track_status tr s0) c = track_status tr s0 ->
          status_step (track_status tr s0) c = s0
          \/ (status_step (track_status tr s0) c = StatusOK
              /\ existsb is_Write tr || is_Write c = true)
          \/ (status_step (track_status tr s0) c = StatusSwitchingProtocols
              /\ existsb is_upgrade tr || is_upgrade c = true)
          \/ CWriteHeader (status_step (track_status tr s0) c) ∈ tr ++ [c]) as Hkeep.
  { intros ->. destruct IH as [H|[[H1 H2]|[[H1 H2]|H]]].
    - by left.
    - right; left. by rewrite H2.
    - right; right; left. by rewrite H2.
    - right; right; right. apply elem_of_app. by left. }
  destruct c; try (by apply Hkeep).
  - destruct (track_status tr s0 =? 0) eqn:E.
    + right; left. cbn. rewrite E. by rewrite orb_true_r.
    + apply Hkeep. cbn. by rewrite E.
  - right; right; right. cbn. apply elem_of_app. right. by apply list_elem_of_singleton.
  - destruct (upgraded r && (track_status tr s0 =? 0)) eqn:E.
    + right; right; left. cbn. rewrite E.
      apply andb_true_iff in E as [-> _]. by rewrite orb_true_r.
    + apply Hkeep. cbn. by rewrite E.
Qed.

(** Within the contract of [io.Writer], the bytes reported lie between 0 and
    the bytes passed. *)
Lemma bytes_reported_bounds tr :
  writes_within_contract tr = true -> 0 <= bytes_reported tr <= bytes_passed tr.
Proof.
  unfold bytes_reported, bytes_passed.
  induction tr as [|c tr IH]; cbn; [lia|].
  intros [Hc Htr]%andb_true_iff. specialize (IH Htr).
  destruct c; cbn; try done.
  apply andb_true_iff in Hc as [H1%Z.leb_le H2%Z.leb_le]. lia.
Qed.

(** What a real writer that honours [io.Writer] answers stays within the
    contract. *)
Lemma forwarded_within_contract {RS : Type} (impl : ResponseWriter RS) tr real real' :
  honours_io_Writer impl ->
  forwarded impl tr real = Some real' ->
  writes_within_contract tr = true.
Proof.
  intros Hio. unfold writes_within_contract.
  revert real. induction tr as [|c tr IH]; intros real; cbn; [done|].
  destruct c; cbn; try (by apply IH).
  - pose proof (Hio b real) as Hb.
    destruct (rw_Write impl b real) as [[n' err'] real1]. cbn in Hb.
    destruct (bool_decide (n' = n)) eqn:En; [|done].
    destruct (bool_decide (err' = err)); [|done]. cbn.
    apply bool_decide_eq_true_1 in En as <-. intros Hf.
    rewrite (IH _ Hf), andb_true_r.
    apply andb_true_iff. split; [apply Z.leb_le|apply Z.leb_le]; lia.
  - destruct (rw_Flush impl); by apply IH.
  - destruct (rw_Hijack impl) as [hj|]; [|done]. destruct (hj real) as [r' real1].
    destruct (bool_decide (r' = r)); [|done]. by apply IH.
  - destruct (rw_CloseNotify impl) as [cn|]; [|done]. destruct (cn real) as [c' real1].
    destruct (bool_decide (c' = c)); [|done]. by apply IH.
Qed.

Section Records.
Context {RS : Type}.
Variable impl : ResponseWriter RS.
Variable GetTransactionIdFromRequest : Request -> string.
Variable SplitHostPort : string -> option (string * string).
Variable URL_RequestURI : URL -> string.

(** The entry a returning request leaves last, in full: the request is read
    as the handler left it, the transaction ID, the URL and the clock as they
    were when the call began. *)
Lemma logging_ServeHTTP_entry out h real sh :
  has_returned
    (transactionAwareRequestLoggingHandler_ServeHTTP impl GetTransactionIdFromRequest
       SplitHostPort URL_RequestURI (TransactionAwareRequestLoggingHandler out h) real sh)
  = true ->
  exists st sz,
    last (sh_logrus
            (outcome_val
               (transactionAwareRequestLoggingHandler_ServeHTTP impl
                  GetTransactionIdFromRequest SplitHostPort URL_RequestURI
                  (TransactionAwareRequestLoggingHandler out h) real sh)).2)
    = Some (mkEntry
              (requestLog_fields SplitHostPort URL_RequestURI
                 (sh_req
                    (outcome_val
                       (transactionAwareRequestLoggingHandler_ServeHTTP impl
                          GetTransactionIdFromRequest SplitHostPort URL_RequestURI
                          (TransactionAwareRequestLoggingHandler out h) real sh)).2)
                 (GetTransactionIdFromRequest (sh_req sh)) (req_URL (sh_req sh))
                 (sh_now sh) st sz) "").
Proof.
  rewrite logging_ServeHTTP_unfold.
  destruct (run (logger_sink impl (makeLogger impl real).1) h
              (makeLogger impl real).2 sh) as [[cell' sh1]|[cell' sh1]]; [|done].
  intros _. cbn. rewrite last_snoc. by eexists _, _.
Qed.

(** The record of a returning request, with the real writer's side of the
    calls: the counts in the trace are the ones the real writer reported. *)
Lemma logging_ServeHTTP_forwarded_record out h real sh :
  has_returned
    (transactionAwareRequestLoggingHandler_ServeHTTP impl GetTransactionIdFromRequest
       SplitHostPort URL_RequestURI (TransactionAwareRequestLoggingHandler out h) real sh)
  = true ->
  exists tr rec,
    sh_calls
      (outcome_val
         (transactionAwareRequestLoggingHandler_ServeHTTP impl GetTransactionIdFromRequest
            SplitHostPort URL_RequestURI (TransactionAwareRequestLoggingHandler out h)
            real sh)).2
    = sh_calls sh ++ tr
    /\ last (sh_logrus
               (outcome_val
                  (transactionAwareRequestLoggingHandler_ServeHTTP impl
                     GetTransactionIdFromRequest SplitHostPort URL_RequestURI
                     (TransactionAwareRequestLoggingHandler out h) real sh)).2)
       = Some (mkEntry rec "")
    /\ forwarded impl tr real
       = Some
           (outcome_val
              (transactionAwareRequestLoggingHandler_ServeHTTP impl
                 GetTransactionIdFromRequest SplitHostPort URL_RequestURI
                 (TransactionAwareRequestLoggingHandler out h) real sh)).1
    /\ f_size rec = wrap_int (bytes_reported tr).
Proof.
  intros Hret.
  destruct (logging_ServeHTTP_record impl GetTransactionIdFromRequest SplitHostPort
              URL_RequestURI out h real sh Hret)
    as (tr & rec & Hcalls & Hlast & _ & Hsize & _).
  destruct (run_logger_forwards impl real h (makeLogger impl real).2 sh)
    as (tr' & Hcalls' & Hfwd).
  assert (w (makeLogger impl real).2 = real) as Hw by (by rewrite makeLogger_cases).
  rewrite Hw in Hfwd.
  exists tr, rec. repeat apply conj; try done.
  - rewrite logging_ServeHTTP_unfold in Hcalls |- *.
    destruct (run (logger_sink impl (makeLogger impl real).1) h
                (makeLogger impl real).2 sh) as [[cell' sh1]|[cell' sh1]];
      cbn in *; rewrite Hcalls' in Hcalls; by apply app_inv_head in Hcalls as <-.
  - rewrite Hsize, <- wrap_int_0 at 1. by rewrite track_size_reported.
Qed.

(** C4, as amended: when the handler has returned, the calls it made are
    the ones the real writer answered, and the size of the logged record is
    the sum, as a Go [int], of the byte counts the real writer reported back
    for the handler's [Write] calls; whenever the real writer accepted every
    one of those writes in full, this is the sum of the byte counts passed to
    them as a Go [int], hence that very sum when it fits an [int]. *)
Theorem C4_logged_size out h real sh :
  has_returned
    (transactionAwareRequestLoggingHandler_ServeHTTP impl GetTransactionIdFromRequest
       SplitHostPort URL_RequestURI (TransactionAwareRequestLoggingHandler out h) real sh)
  = true ->
  exists tr rec,
    sh_calls
      (outcome_val
         (transactionAwareRequestLoggingHandler_ServeHTTP impl GetTransactionIdFromRequest
            SplitHostPort URL_RequestURI (TransactionAwareRequestLoggingHandler out h)
            real sh)).2
    = sh_calls sh ++ tr
    /\ last (sh_logrus
               (outcome_val
                  (transactionAwareRequestLoggingHandler_ServeHTTP impl
                     GetTransactionIdFromRequest SplitHostPort URL_RequestURI
                     (TransactionAwareRequestLoggingHandler out h) real sh)).2)
       = Some (mkEntry rec "")
    /\ forwarded impl tr real
       = Some
           (outcome_val
              (transactionAwareRequestLoggingHandler_ServeHTTP impl
                 GetTransactionIdFromRequest SplitHostPort URL_RequestURI
                 (TransactionAwareRequestLoggingHandler out h) real sh)).1
    /\ f_size rec = wrap_int (bytes_reported tr)
    /\ (writes_complete tr = true -> f_size rec = wrap_int (bytes_passed tr))
    /\ (writes_complete tr = true -> in_int_range (bytes_passed tr) ->
        f_size rec = bytes_passed tr).
Proof.
  intros Hret.
  destruct (logging_ServeHTTP_forwarded_record out h real sh Hret)
    as (tr & rec & Hcalls & Hlast & Hfwd & Hrep).
  exists tr, rec. repeat apply conj; try done.
  - intros Hfull. by rewrite Hrep, (writes_complete_passed _ Hfull).
  - intros Hfull Hrange. rewrite Hrep, (writes_complete_passed _ Hfull).
    by apply wrap_int_in_range.
Qed.

(** X1: for a handler whose type assertions on its writer are limited to
    [http.ResponseWriter], [http.Hijacker], [http.CloseNotifier] and
    [http.Flusher] (no assertion for [loggingResponseWriter], and none for
    any other interface or for a concrete type, which the tracking writer
    does not carry over), and which asserts [http.Flusher] or calls [Flush]
    only if the real writer has it, serving through the logging decorator
    ends the way running the handler on the real writer ends, leaves the real
    writer in the same state, and leaves the same world apart from the
    entries logrus received. *)
Theorem logging_decorator_transparent out h real sh :
  oblivious (has_Flush impl) h ->
  has_returned
    (transactionAwareRequestLoggingHandler_ServeHTTP impl GetTransactionIdFromRequest
       SplitHostPort URL_RequestURI (TransactionAwareRequestLoggingHandler out h) real sh)
  = has_returned (run (real_sink impl) h real sh)
  /\ (outcome_val
        (transactionAwareRequestLoggingHandler_ServeHTTP impl GetTransactionIdFromRequest
           SplitHostPort URL_RequestURI (TransactionAwareRequestLoggingHandler out h)
           real sh)).1
     = (outcome_val (run (real_sink impl) h real sh)).1
  /\ set_logrus (sh_logrus (outcome_val (run (real_sink impl) h real sh)).2)
       (outcome_val
          (transactionAwareRequestLoggingHandler_ServeHTTP impl
             GetTransactionIdFromRequest SplitHostPort URL_RequestURI
             (TransactionAwareRequestLoggingHandler out h) real sh)).2
     = (outcome_val (run (real_sink impl) h real sh)).2.
Proof.
  intros Hob.
  pose proof (run_logger_transparent impl real h (makeLogger impl real).2 sh Hob) as H.
  assert (w (makeLogger impl real).2 = real) as Hw by (by rewrite makeLogger_cases).
  rewrite Hw in H. rewrite logging_ServeHTTP_unfold, <- H.
  destruct (run (logger_sink impl (makeLogger impl real).1) h
              (makeLogger impl real).2 sh) as [[cell' sh1]|[cell' sh1]];
    cbn; repeat apply conj; try done; by destruct sh1.
Qed.

(** X2: whatever the handler does, the calls it makes on the tracking writer
    reach the real writer one for one, in the same order and with the same
    arguments (a [Flush] is dropped when the real writer has none), and the
    results the handler sees are the real writer's: replaying the recorded
    calls on the real writer alone reproduces the state it is left in. *)
Theorem logging_decorator_forwards out h real sh :
  exists tr,
    sh_calls
      (outcome_val
         (transactionAwareRequestLoggingHandler_ServeHTTP impl GetTransactionIdFromRequest
            SplitHostPort URL_RequestURI (TransactionAwareRequestLoggingHandler out h)
            real sh)).2
    = sh_calls sh ++ tr
    /\ forwarded impl tr real
       = Some
           (outcome_val
              (transactionAwareRequestLoggingHandler_ServeHTTP impl
                 GetTransactionIdFromRequest SplitHostPort URL_RequestURI
                 (TransactionAwareRequestLoggingHandler out h) real sh)).1.
Proof.
  destruct (run_logger_forwards impl real h (makeLogger impl real).2 sh)
    as (tr & H1 & H2).
  assert (w (makeLogger impl real).2 = real) as Hw by (by rewrite makeLogger_cases).
  rewrite Hw in H2. exists tr. rewrite logging_ServeHTTP_unfold.
  by destruct (run (logger_sink impl (makeLogger impl real).1) h
                 (makeLogger impl real).2 sh) as [[cell' sh1]|[cell' sh1]].
Qed.

(** X3: the tracking writer adds no panic of its own.  For a request that
    carries a URL and a real writer whose methods return normally (both are
    standing assumptions of this development), a handler that does not panic
    itself and calls [Flush], [Hijack] or [CloseNotify] only when the writer
    it is given has the method is served to the end: the unguarded assertion
    inside [hijackLogger.Hijack] and the embedded [http.CloseNotifier] never
    fail on a value [makeLogger] built, the decorator returns, and its record
    is the last entry logrus received. *)
Theorem logging_decorator_never_aborts out h real sh :
  disciplined (method_set (makeLogger impl real).1) h ->
  has_returned
    (transactionAwareRequestLoggingHandler_ServeHTTP impl GetTransactionIdFromRequest
       SplitHostPort URL_RequestURI (TransactionAwareRequestLoggingHandler out h) real sh)
  = true
  /\ exists es rec,
       sh_logrus
         (outcome_val
            (transactionAwareRequestLoggingHandler_ServeHTTP impl
               GetTransactionIdFromRequest SplitHostPort URL_RequestURI
               (TransactionAwareRequestLoggingHandler out h) real sh)).2
       = sh_logrus sh ++ es ++ [mkEntry rec ""].
Proof.
  intros Hd.
  pose proof (run_logger_disciplined impl real h (makeLogger impl real).2 sh Hd) as Hret.
  destruct (run_logrus_prefix (logger_sink impl (makeLogger impl real).1) h
              (makeLogger impl real).2 sh) as [es Hes].
  rewrite logging_ServeHTTP_unfold.
  destruct (run (logger_sink impl (makeLogger impl real).1) h
              (makeLogger impl real).2 sh) as [[cell' sh1]|[cell' sh1]]; [|done].
  split; [done|]. cbn in *. eexists es, _. by rewrite Hes, <- app_assoc.
Qed.

(** X5: the status of the logged record is never invented: it is 0, or 200
    and the handler made a [Write] call, or 101 and the handler performed a
    successful upgrade, or a code the handler itself passed to
    [WriteHeader]. *)
Theorem logged_status_origin out h real sh :
  has_returned
    (transactionAwareRequestLoggingHandler_ServeHTTP impl GetTransactionIdFromRequest
       SplitHostPort URL_RequestURI (TransactionAwareRequestLoggingHandler out h) real sh)
  = true ->
  exists tr rec,
    sh_calls
      (outcome_val
         (transactionAwareRequestLoggingHandler_ServeHTTP impl GetTransactionIdFromRequest
            SplitHostPort URL_RequestURI (TransactionAwareRequestLoggingHandler out h)
            real sh)).2
    = sh_calls sh ++ tr
    /\ last (sh_logrus
               (outcome_val
                  (transactionAwareRequestLoggingHandler_ServeHTTP impl
                     GetTransactionIdFromRequest SplitHostPort URL_RequestURI
                     (TransactionAwareRequestLoggingHandler out h) real sh)).2)
       = Some (mkEntry rec "")
    /\ (f_status rec = 0
        \/ (f_status rec = StatusOK /\ existsb is_Write tr = true)
        \/ (f_status rec = StatusSwitchingProtocols /\ existsb is_upgrade tr = true)
        \/ CWriteHeader (f_status rec) ∈ tr).
Proof.
  intros Hret.
  destruct (logging_ServeHTTP_record impl GetTransactionIdFromRequest SplitHostPort
              URL_RequestURI out h real sh Hret)
    as (tr & rec & Hcalls & Hlast & Hstatus & _ & _).
  exists tr, rec. repeat apply conj; try done.
  rewrite Hstatus. apply track_status_origin.
Qed.

(** X6: over a real writer that honours the contract of [io.Writer] (every
    count it reports lies between 0 and the bytes passed), the calls the
    handler made are the ones the real writer answered and, as long as the
    bytes passed fit an [int], the logged size is exactly the sum of the
    counts the real writer reported, is never negative and never exceeds the
    bytes the handler passed to [Write]. *)
Theorem logged_size_bounds out h real sh :
  honours_io_Writer impl ->
  has_returned
    (transactionAwareRequestLoggingHandler_ServeHTTP impl GetTransactionIdFromRequest
       SplitHostPort URL_RequestURI (TransactionAwareRequestLoggingHandler out h) real sh)
  = true ->
  exists tr rec,
    sh_calls
      (outcome_val
         (transactionAwareRequestLoggingHandler_ServeHTTP impl GetTransactionIdFromRequest
            SplitHostPort URL_RequestURI (TransactionAwareRequestLoggingHandler out h)
            real sh)).2
    = sh_calls sh ++ tr
    /\ last (sh_logrus
               (outcome_val
                  (transactionAwareRequestLoggingHandler_ServeHTTP impl
                     GetTransactionIdFromRequest SplitHostPort URL_RequestURI
                     (TransactionAwareRequestLoggingHandler out h) real sh)).2)
       = Some (mkEntry rec "")
    /\ forwarded impl tr real
       = Some
           (outcome_val
              (transactionAwareRequestLoggingHandler_ServeHTTP impl
                 GetTransactionIdFromRequest SplitHostPort URL_RequestURI
                 (TransactionAwareRequestLoggingHandler out h) real sh)).1
    /\ (in_int_range (bytes_passed tr) ->
        f_size rec = bytes_reported tr /\ 0 <= f_size rec <= bytes_passed tr).
Proof.
  intros Hio Hret.
  destruct (logging_ServeHTTP_forwarded_record out h real sh Hret)
    as (tr & rec & Hcalls & Hlast & Hfwd & Hrep).
  exists tr, rec. repeat apply conj; try done.
  intros Hrange.
  pose proof (bytes_reported_bounds tr (forwarded_within_contract impl _ _ _ Hio Hfwd)) as Hb.
  assert (f_size rec = bytes_reported tr) as ->; [|done].
  rewrite Hrep. apply wrap_int_in_range.
  unfold in_int_range, int_bits in *. cbn in *. lia.
Qed.

(** X8: what the record of a returning request is made of and when it is
    read.  The time is the clock when the call began, however long the
    handler took, and the transaction ID is computed from the request as it
    arrived; the method, protocol, referer, user agent and client address
    are read from the request after the handler has returned, so changes the
    handler made to the request show in them.  The host is the host part of
    the client address, or the whole address when it cannot be split; the
    message of the entry is empty. *)
Theorem logged_record_provenance out h real sh :
  has_returned
    (transactionAwareRequestLoggingHandler_ServeHTTP impl GetTransactionIdFromRequest
       SplitHostPort URL_RequestURI (TransactionAwareRequestLoggingHandler out h) real sh)
  = true ->
  exists rec,
    last (sh_logrus
            (outcome_val
               (transactionAwareRequestLoggingHandler_ServeHTTP impl
                  GetTransactionIdFromRequest SplitHostPort URL_RequestURI
                  (TransactionAwareRequestLoggingHandler out h) real sh)).2)
    = Some (mkEntry rec "")
    /\ let req' :=
         sh_req
           (outcome_val
              (transactionAwareRequestLoggingHandler_ServeHTTP impl
                 GetTransactionIdFromRequest SplitHostPort URL_RequestURI
                 (TransactionAwareRequestLoggingHandler out h) real sh)).2 in
       f_time rec = sh_now sh
       /\ f_transaction_id rec = GetTransactionIdFromRequest (sh_req sh)
       /\ f_method rec = req_Method req'
       /\ f_protocol rec = req_Proto req'
       /\ f_referer rec = Header_Get (req_Header req') "Referer"
       /\ f_userAgent rec = Header_Get (req_Header req') "User-Agent"
       /\ (forall host port, SplitHostPort (req_RemoteAddr req') = Some (host, port) ->
             f_host rec = host)
       /\ (SplitHostPort (req_RemoteAddr req') = None ->
           f_host rec = req_RemoteAddr req').
Proof.
  intros Hret.
  destruct (logging_ServeHTTP_entry out h real sh Hret) as (st & sz & Hlast).
  eexists. split; [exact Hlast|]. cbn. repeat apply conj; try done.
  - by intros host port ->.
  - by intros ->.
Qed.

(** X9: the username of the record is that of the URL the request arrived
    with, or "-" when that URL carries no user information or an empty
    username, so it is never empty; and the uri of the record is never empty
    as long as [url.URL.RequestURI] of the URL at arrival is not. *)
Theorem logged_username_and_uri_nonempty out h real sh :
  has_returned
    (transactionAwareRequestLoggingHandler_ServeHTTP impl GetTransactionIdFromRequest
       SplitHostPort URL_RequestURI (TransactionAwareRequestLoggingHandler out h) real sh)
  = true ->
  exists rec,
    last (sh_logrus
            (outcome_val
               (transactionAwareRequestLoggingHandler_ServeHTTP impl
                  GetTransactionIdFromRequest SplitHostPort URL_RequestURI
                  (TransactionAwareRequestLoggingHandler out h) real sh)).2)
    = Some (mkEntry rec "")
    /\ (url_User (req_URL (sh_req sh)) = None -> f_username rec = "-"%string)
    /\ (forall u, url_User (req_URL (sh_req sh)) = Some u ->
          f_username rec = if String.eqb (ui_username u) "" then "-"%string
                           else ui_username u)
    /\ f_username rec <> ""%string
    /\ (URL_RequestURI (req_URL (sh_req sh)) <> ""%string -> f_uri rec <> ""%string).
Proof.
  intros Hret.
  destruct (logging_ServeHTTP_entry out h real sh Hret) as (st & sz & Hlast).
  eexists. split; [exact Hlast|]. cbn. repeat apply conj.
  - by intros ->.
  - by intros u ->.
  - destruct (url_User (req_URL (sh_req sh))) as [u|]; [|done].
    by destruct (String.eqb_spec (ui_username u) "").
  - intros Hne. unfold requestLog_uri.
    match goal with
    | |- context [String.eqb ?x ""] => by destruct (String.eqb_spec x "")
    end.
Qed.

End Records.

(** ** The further properties at concrete inputs *)

(** X1 on a handler that sets a header, writes and flushes, over a recorder
    with every capability. *)
Lemma logging_decorator_transparent_witness :
  oblivious (has_Flush full_writer) streaming_handler
  /\ (outcome_val (serve_logged full_writer sample_request streaming_handler)).1
     = mkRecorder 200 [("Content-Type"%string, "text/plain"%string)] hello 1 false
  /\ (outcome_val
        (run (real_sink full_writer) streaming_handler new_recorder
           (sample_world sample_request))).1
     = mkRecorder 200 [("Content-Type"%string, "text/plain"%string)] hello 1 false.
Proof.
  assert (oblivious (has_Flush full_writer) streaming_handler) as Hob.
  { cbn. intros n err. repeat split; try discriminate. by intros []. }
  split; [exact Hob|].
  pose proof (proj1 (proj2
    (logging_decorator_transparent full_writer sample_transaction_id
       sample_SplitHostPort sample_RequestURI 3%nat streaming_handler new_recorder
       (sample_world sample_request) Hob))) as H.
  split; [|reflexivity]. etrans; [exact H|reflexivity].
Defined.

(** X3 on the handler that asks for close notification and then upgrades,
    over a recorder with every capability: both calls are made. *)
Lemma logging_decorator_never_aborts_witness :
  disciplined (method_set (makeLogger full_writer new_recorder).1)
    notify_then_upgrade_handler
  /\ sh_calls
       (outcome_val (serve_logged full_writer sample_request notify_then_upgrade_handler)).2
     = [CCloseNotify 7%nat; CHijack (mkHijackResult (Some 1%nat) (Some 1%nat) None)]
  /\ has_returned (serve_logged full_writer sample_request notify_then_upgrade_handler)
     = true.
Proof.
  assert (disciplined (method_set (makeLogger full_writer new_recorder).1)
            notify_then_upgrade_handler) as Hd.
  { vm_compute. split; [reflexivity|]. intros c. split; [reflexivity|].
    intros r. exact I. }
  split; [exact Hd|]. split; [reflexivity|].
  exact (proj1 (logging_decorator_never_aborts full_writer sample_transaction_id
                  sample_SplitHostPort sample_RequestURI 3%nat
                  notify_then_upgrade_handler new_recorder
                  (sample_world sample_request) Hd)).
Defined.

(** X4 on a recorder that can only notify of a closed connection. *)
Lemma CloseNotify_forwarded_witness :
  rw_CloseNotify (recorder false false true false None) = Some (fun r => (7%nat, r))
  /\ call_CloseNotify (recorder false false true false None)
       (makeLogger (recorder false false true false None) new_recorder).1
       (mkResponseLogger new_recorder 404 5)
     = Some (7%nat, mkResponseLogger new_recorder 404 5).
Proof.
  split; [reflexivity|].
  exact (proj2 (CloseNotify_forwarded (recorder false false true false None)
                  new_recorder (fun r => (7%nat, r))
                  (mkResponseLogger new_recorder 404 5) eq_refl)).
Defined.

(** X5 on the handler that answers 404 with a body. *)
Lemma logged_status_origin_witness :
  has_returned (serve_logged plain_writer sample_request not_found_handler) = true
  /\ exists tr rec,
       sh_calls (outcome_val (serve_logged plain_writer sample_request not_found_handler)).2
       = sh_calls (sample_world sample_request) ++ tr
       /\ last (sh_logrus
                  (outcome_val
                     (serve_logged plain_writer sample_request not_found_handler)).2)
          = Some (mkEntry rec "")
       /\ (f_status rec = 0
           \/ (f_status rec = StatusOK /\ existsb is_Write tr = true)
           \/ (f_status rec = StatusSwitchingProtocols /\ existsb is_upgrade tr = true)
           \/ CWriteHeader (f_status rec) ∈ tr).
Proof.
  split; [reflexivity|].
  exact (logged_status_origin plain_writer sample_transaction_id sample_SplitHostPort
           sample_RequestURI 3%nat not_found_handler new_recorder
           (sample_world sample_request) eq_refl).
Defined.

(** X6 on the handler that writes five bytes, over a plain recorder. *)
Lemma logged_size_bounds_witness :
  honours_io_Writer plain_writer
  /\ has_returned (serve_logged plain_writer sample_request write_handler) = true
  /\ exists rec,
       last (sh_logrus
               (outcome_val (serve_logged plain_writer sample_request write_handler)).2)
       = Some (mkEntry rec "")
       /\ 0 <= f_size rec <= 5.
Proof.
  assert (honours_io_Writer plain_writer) as Hio by (intros b st; cbn; lia).
  split; [exact Hio|]. split; [reflexivity|].
  destruct (logged_size_bounds plain_writer sample_transaction_id sample_SplitHostPort
              sample_RequestURI 3%nat write_handler new_recorder
              (sample_world sample_request) Hio eq_refl)
    as (tr & rec & Hcalls & Hlast & _ & Hbounds).
  exists rec. split; [exact Hlast|].
  vm_compute in Hcalls. rewrite <- Hcalls in Hbounds.
  apply Hbounds. unfold in_int_range, int_bits. vm_compute.
  split; [discriminate|reflexivity].
Defined.

(** C4 on the handler that writes five bytes, over a plain recorder. *)
Lemma C4_logged_size_witness :
  has_returned (serve_logged plain_writer sample_request write_handler) = true
  /\ exists rec,
       last (sh_logrus
               (outcome_val (serve_logged plain_writer sample_request write_handler)).2)
       = Some (mkEntry rec "")
       /\ f_size rec = 5.
Proof.
  split; [reflexivity|].
  destruct (C4_logged_size plain_writer sample_transaction_id sample_SplitHostPort
              sample_RequestURI 3%nat write_handler new_recorder
              (sample_world sample_request) eq_refl)
    as (tr & rec & Hcalls & Hlast & _ & _ & _ & Hfull).
  exists rec. split; [exact Hlast|].
  vm_compute in Hcalls. rewrite <- Hcalls in Hfull.
  apply Hfull; [reflexivity|]. unfold in_int_range, int_bits. vm_compute.
  split; [discriminate|reflexivity].
Defined.

(** X7 on a five-byte write to a fresh tracking writer. *)
Lemma size_transitions_witness :
  0 <= (rw_Write plain_writer hello new_recorder).1.1
  /\ in_int_range (0 + (rw_Write plain_writer hello new_recorder).1.1)
  /\ size (makeLogger plain_writer new_recorder).2
     <= size (call_Write plain_writer (makeLogger plain_writer new_recorder).1 hello
                (makeLogger plain_writer new_recorder).2).2.
Proof.
  assert (0 <= (rw_Write plain_writer hello new_recorder).1.1) as Hpos
    by (vm_compute; discriminate).
  assert (in_int_range (0 + (rw_Write plain_writer hello new_recorder).1.1)) as Hrange
    by (unfold in_int_range, int_bits; vm_compute; split; [discriminate|reflexivity]).
  split; [exact Hpos|]. split; [exact Hrange|].
  exact (proj2 (proj2 (proj1 (size_transitions plain_writer new_recorder
                                (makeLogger plain_writer new_recorder).2) hello))
           Hpos Hrange).
Defined.

(** X8 on a handler that sleeps before it answers. *)
Lemma logged_record_provenance_witness :
  has_returned (serve_logged plain_writer sample_request slow_handler) = true
  /\ sh_now (outcome_val (serve_logged plain_writer sample_request slow_handler)).2 = 1250
  /\ exists rec,
       last (sh_logrus
               (outcome_val (serve_logged plain_writer sample_request slow_handler)).2)
       = Some (mkEntry rec "")
       /\ f_time rec = 1000
       /\ f_transaction_id rec = "tid_abc123"%string.
Proof.
  split; [reflexivity|]. split; [reflexivity|].
  destruct (logged_record_provenance plain_writer sample_transaction_id
              sample_SplitHostPort sample_RequestURI 3%nat slow_handler new_recorder
              (sample_world sample_request) eq_refl)
    as (rec & Hlast & Htime & Htid & _).
  exists rec. repeat split; [exact Hlast|exact Htime|exact Htid].
Defined.

(** X9 on a request whose URL names the user alice. *)
Lemma logged_username_and_uri_nonempty_witness :
  has_returned (serve_logged plain_writer user_request write_handler) = true
  /\ sample_RequestURI (req_URL (sh_req (sample_world user_request))) <> ""%string
  /\ exists rec,
       last (sh_logrus
               (outcome_val (serve_logged plain_writer user_request write_handler)).2)
       = Some (mkEntry rec "")
       /\ f_username rec = "alice"%string
       /\ f_uri rec <> ""%string.
Proof.
  split; [reflexivity|]. split; [discriminate|].
  destruct (logged_username_and_uri_nonempty plain_writer sample_transaction_id
              sample_SplitHostPort sample_RequestURI 3%nat write_handler new_recorder
              (sample_world user_request) eq_refl)
    as (rec & Hlast & _ & Huser & _ & Huri).
  exists rec. repeat split; [exact Hlast| |apply Huri; discriminate].
  exact (Huser (mkUserinfo "alice") eq_refl).
Defined.
